(** * kubenetbench: the monitor coordination and collection pipeline

    A shallow embedding of [kubenetbench/core/monitor.go]: endpoint
    resolution ([srvAddrForNode], [DialMonitor]), the stream transfer
    ([copyStreamToFile]), the sysinfo side channel ([GetSysInfoNode],
    [GetSysInfoNodes]) and the two collection phases ([startCollection],
    [endCollection]).

    The Go code talks to the cluster, to gRPC and to the file system.  Those
    collaborators are gathered in a record of oracles ([Env]); the program
    itself is a state-passing computation over the local files and a trace
    of the observable events (log lines, sleeps, queries, dials, remote
    calls).  Closing a connection or a file and cancelling a context change
    nothing of that state, so the deferred calls are not part of it. *)

From Stdlib Require Import String Ascii List NArith ZArith Lia Permutation.
From stdpp Require Import gmap strings list fin_maps pretty.
Import ListNotations.

Local Open Scope string_scope.
Local Open Scope list_scope.

(** * The program and the vocabulary of its specification *)

(** ** Errors *)

(** Go [error] values.  [EOF] is the sentinel [io.EOF]; [ErrStr] is an error
    that carries only a text (from a collaborator, or [fmt.Errorf] without
    [%w]); [ErrWrap msg cause] is what [fmt.Errorf] builds for a format
    holding [%w]: [msg] is the whole text, [cause] is what [Unwrap] gives. *)
Inductive error : Type :=
| EOF
| ErrStr (msg : string)
| ErrWrap (msg : string) (cause : error).

(** The [Error()] method. *)
Definition errText (e : error) : string :=
  match e with
  | EOF => "EOF"
  | ErrStr m => m
  | ErrWrap m _ => m
  end.

(** [fmt.Errorf(prefix + "%w", e)]. *)
Definition Errorf_w (prefix : string) (e : error) : error :=
  ErrWrap (prefix +:+ errText e) e.

(** [err == io.EOF]. *)
Definition isEOF (e : error) : bool :=
  match e with EOF => true | _ => false end.

(** The cause chain of an error ([errors.Unwrap] iterated), the error first. *)
Fixpoint causes (e : error) : list error :=
  match e with
  | ErrWrap _ c => e :: causes c
  | _ => [e]
  end.

(** A Go call returning [(v, err)] whose value is consulted only after
    [err] was found nil. *)
Inductive res (A : Type) : Type :=
| Ok (a : A)
| Fail (e : error).
Arguments Ok {A} a.
Arguments Fail {A} e.

(** ** Library functions the code calls *)

Definition byteIs (n : N) (c : ascii) : bool := (N_of_ascii c =? n)%N.

Definition asciiSpace (c : ascii) : bool :=
  byteIs 9 c || byteIs 10 c || byteIs 11 c || byteIs 12 c || byteIs 13 c
  || byteIs 32 c.

(** Width in bytes of the white-space rune ([unicode.IsSpace]) that starts
    the string, 0 when the string does not start with one.  Beyond the six
    ASCII characters these are U+0085, U+00A0, U+1680, U+2000..U+200A,
    U+2028, U+2029, U+202F, U+205F and U+3000, in their UTF-8 encodings. *)
Definition spaceLen (s : string) : nat :=
  match s with
  | String c0 s1 =>
    if asciiSpace c0 then 1
    else match s1 with
    | String c1 s2 =>
      if byteIs 194 c0 && (byteIs 133 c1 || byteIs 160 c1) then 2
      else match s2 with
      | String c2 _ =>
        if byteIs 225 c0 && byteIs 154 c1 && byteIs 128 c2 then 3
        else if byteIs 226 c0 && byteIs 128 c1
                && ((128 <=? N_of_ascii c2)%N && (N_of_ascii c2 <=? 138)%N
                    || byteIs 168 c2 || byteIs 169 c2 || byteIs 175 c2)
             then 3
        else if byteIs 226 c0 && byteIs 129 c1 && byteIs 159 c2 then 3
        else if byteIs 227 c0 && byteIs 128 c1 && byteIs 128 c2 then 3
        else 0
      | EmptyString => 0
      end
    | EmptyString => 0
    end
  | EmptyString => 0
  end.

Definition flushField (cur : string) : list string :=
  match cur with
  | EmptyString => []
  | _ => [cur]
  end.

(** [skip] counts the bytes left of a white-space rune being skipped, [cur]
    is the field being read. *)
Fixpoint fieldsFrom (skip : nat) (cur : string) (s : string) : list string :=
  match s with
  | EmptyString => flushField cur
  | String c s' =>
    match skip with
    | S k => fieldsFrom k cur s'
    | O =>
      match spaceLen s with
      | O => fieldsFrom O (cur +:+ String c EmptyString) s'
      | S k => flushField cur ++ fieldsFrom k EmptyString s'
      end
    end
  end.

(** [strings.Fields]: the maximal runs of characters that are not white
    space. *)
Definition Fields (s : string) : list string := fieldsFrom 0 EmptyString s.

Fixpoint hasColon (s : string) : bool :=
  match s with
  | EmptyString => false
  | String c s' => byteIs 58 c || hasColon s'
  end.

(** [net.JoinHostPort]: a host that holds a colon is put in brackets. *)
Definition JoinHostPort (host port : string) : string :=
  if hasColon host then "[" +:+ host +:+ "]:" +:+ port
  else host +:+ ":" +:+ port.

(** [fmt]'s [%v] of a [[]string]. *)
Definition fmtStrings (l : list string) : string :=
  "[" +:+ String.concat " " l +:+ "]".

(** [fmt]'s [%d]. *)
Definition fmtNat (n : nat) : string := pretty n.

(** ** Constants of the package *)

Definition monitorPort : string := "8451".
Definition monitorSelector : string := "role=monitor".

(** ** Data *)

Abbreviation bytes := (list Byte.byte).

(** What [Recv] returns, call after call; once the list is used up [Recv]
    returns [io.EOF]. *)
Definition Stream : Type := list (res bytes).

(** A [FileReceiver] interface value: [None] is the nil interface. *)
Definition FileReceiver : Type := option Stream.

(** The fields of [Session] this file reads. *)
Record Session : Type := {
  dir : string;
  portForward : bool
}.

(** The fields of [RunBenchCtx] this file reads; [getDir] stands for the
    method of that name, whose result is the directory of the run. *)
Record RunBenchCtx : Type := {
  session : Session;
  runid : string;
  getDir : string;
  collectNodes : list string
}.

Definition appendNode (r : RunBenchCtx) (node : string) : RunBenchCtx :=
  {| session := session r; runid := runid r; getDir := getDir r;
     collectNodes := collectNodes r ++ [node] |}.

(** ** The world *)

(** Observable events, in the order they happen. *)
Inductive event : Type :=
| EvLog (msg : string)
| EvSleep (seconds : nat)
| EvGetNodeIP (node : string)
| EvGetPodForNode (node selector : string)
| EvPortForward (pod port : string)
| EvDial (addr : string)
| EvStartCollection (addr duration collectionId : string)
| EvGetCollectionResults (addr collectionId : string)
| EvGetSysInfo (addr : string)
| EvOpenFile (path : string).

(** The collaborators.  Every oracle takes the number of interactions that
    happened before it ([tick]), so that the same question may be answered
    differently at different times. *)
Record Env : Type := {
  KubeGetNodeIP : nat -> string -> res string;
  KubeGetPodForNode : nat -> string -> string -> res string;
  KubePortForward : nat -> string -> string -> res string;
  grpcDial : nat -> string -> option error;
  KubeGetNodesAndIps : nat -> res (list string);
  (* the label names PodName, PodNodeName, PodPhase are declared elsewhere *)
  podLabels : list string;
  KubeGetPods__ : nat -> list string -> res (list (list string));
  (* order in which [range] visits the keys of a map *)
  rangeSeed : nat -> list nat;
  rpcStartCollection : nat -> string -> string -> string -> option error;
  (* the stream is used whatever the error is: both results are kept *)
  rpcGetCollectionResults : nat -> string -> string -> FileReceiver * option error;
  rpcGetSysInfo : nat -> string -> res Stream;
  osOpenFile : nat -> string -> option error;
  (* [None]: all bytes written; [Some (n, e)]: [n] bytes written, then [e] *)
  fileWrite : nat -> string -> bytes -> option (nat * error);
  (* what [fmt.Sprintf] prints for [%w], a verb only [Errorf] knows *)
  sprintfW : error -> string;
  (* [fmt]'s [%q] of a string *)
  fmtQ : string -> string
}.

Record state : Type := {
  tick : nat;
  files : gmap string bytes;
  trace : list event
}.

Definition emitState (e : event) (st : state) : state :=
  {| tick := tick st; files := files st; trace := trace st ++ [e] |}.

Definition tickState (st : state) : state :=
  {| tick := S (tick st); files := files st; trace := trace st |}.

Definition setFiles (fs : gmap string bytes) (st : state) : state :=
  {| tick := tick st; files := fs; trace := trace st |}.

(** How a computation ends: it returns, it panics, or the process exits
    ([log.Fatal] calls [os.Exit(1)]). *)
Inductive outcome (A : Type) : Type :=
| Ret (a : A)
| Panic (msg : string)
| Exit (code : Z).
Arguments Ret {A} a.
Arguments Panic {A} msg.
Arguments Exit {A} code.

Definition M (A : Type) : Type := state -> outcome A * state.

Definition ret {A} (a : A) : M A := fun st => (Ret a, st).

Definition bind {A B} (c : M A) (k : A -> M B) : M B :=
  fun st =>
    match c st with
    | (Ret a, st') => k a st'
    | (Panic m, st') => (Panic m, st')
    | (Exit n, st') => (Exit n, st')
    end.

Notation "'let*' x ':=' c 'in' k" := (bind c (fun x => k))
  (at level 10, x pattern, c at level 100, k at level 200).
Notation "c ';;' k" := (bind c (fun _ => k))
  (at level 100, k at level 200, right associativity).

Definition emit (e : event) : M unit := fun st => (Ret tt, emitState e st).

(** Ask an oracle: it sees the current tick, which then advances. *)
Definition ask {A} (f : nat -> A) : M A :=
  fun st => (Ret (f (tick st)), tickState st).

Definition panic {A} (msg : string) : M A := fun st => (Panic msg, st).

Definition logPrintf (msg : string) : M unit := emit (EvLog msg).

(** [log.Fatal]: print, then [os.Exit(1)]. *)
Definition logFatal {A} (msg : string) : M A :=
  fun st => (Exit 1%Z, emitState (EvLog msg) st).

Definition timeSleep (seconds : nat) : M unit := emit (EvSleep seconds).

(** ** File system *)

(** [os.OpenFile(fname, O_CREATE|O_WRONLY|O_APPEND, 0666)]: on success the
    file exists afterwards, with the content it had (empty when new). *)
Definition openAppend (env : Env) (fname : string) : M (option error) :=
  emit (EvOpenFile fname) ;;
  let* r := ask (fun t => osOpenFile env t fname) in
  match r with
  | Some e => ret (Some e)
  | None =>
    fun st => (Ret None,
               setFiles (<[fname := default [] (files st !! fname)]> (files st)) st)
  end.

Definition appendBytes (fname : string) (data : bytes) (st : state) : state :=
  setFiles (<[fname := default [] (files st !! fname) ++ data]> (files st)) st.

(** [f.Write(data)] on a file opened for append. *)
Definition writeAppend (env : Env) (fname : string) (data : bytes) : M (option error) :=
  let* r := ask (fun t => fileWrite env t fname data) in
  match r with
  | None => fun st => (Ret None, appendBytes fname data st)
  | Some (n, e) => fun st => (Ret (Some e), appendBytes fname (take n data) st)
  end.

(** ** copyStreamToFile *)

(** The [for] loop of [copyStreamToFile]. *)
Fixpoint copyLoop (env : Env) (fname : string) (stream : Stream) : M (option error) :=
  match stream with
  | [] => ret None
  | Fail e :: _ =>
    if isEOF e then ret None
    else ret (Some (Errorf_w "io error: " e))
  | Ok data :: rest =>
    let* werr := writeAppend env fname data in
    match werr with
    | Some e => ret (Some (Errorf_w "Error writing data: " e))
    | None => copyLoop env fname rest
    end
  end.

Definition copyStreamToFile (env : Env) (fname : string) (stream : FileReceiver)
  : M (option error) :=
  let* oerr := openAppend env fname in
  match oerr with
  | Some e => ret (Some e)
  | None =>
    match stream with
    | None => panic "invalid memory address or nil pointer dereference"
    | Some s => copyLoop env fname s
    end
  end.

(** ** Endpoint resolution and dial *)

Definition srvAddrForNode (env : Env) (s : Session) (nodeName : string)
  : M (res string) :=
  if negb (portForward s) then
    (* directly connect to node IP if port-forwarding is disabled *)
    emit (EvGetNodeIP nodeName) ;;
    let* r := ask (fun t => KubeGetNodeIP env t nodeName) in
    match r with
    | Fail e => ret (Fail e)
    | Ok nodeIP => ret (Ok (JoinHostPort nodeIP monitorPort))
    end
  else
    emit (EvGetPodForNode nodeName monitorSelector) ;;
    let* r := ask (fun t => KubeGetPodForNode env t nodeName monitorSelector) in
    match r with
    | Fail e => ret (Fail e)
    | Ok monitorPod =>
      emit (EvPortForward monitorPod monitorPort) ;;
      let* p := ask (fun t => KubePortForward env t monitorPod monitorPort) in
      match p with
      | Fail e => ret (Fail e)
      | Ok port => ret (Ok (JoinHostPort "localhost" port))
      end
    end.

(** A connection is known by the address it was dialled at. *)
Definition DialMonitor (env : Env) (s : Session) (nodeName : string)
  : M (res string) :=
  let* a := srvAddrForNode env s nodeName in
  match a with
  | Fail e =>
    ret (Fail (Errorf_w ("failed to obtain monitor address of node "
                         +:+ nodeName +:+ ": ") e))
  | Ok srvAddr =>
    emit (EvDial srvAddr) ;;
    let* d := ask (fun t => grpcDial env t srvAddr) in
    match d with
    | Some e =>
      ret (Fail (Errorf_w ("failed to connect to monitor " +:+ srvAddr +:+ ": ") e))
    | None => ret (Ok srvAddr)
    end
  end.

(** ** The sysinfo side channel *)

Definition nl : string := String (ascii_of_nat 10) EmptyString.

Definition sysinfoPath (s : Session) (node_name : string) : string :=
  dir s +:+ "/" +:+ node_name +:+ ".sysinfo".

Definition GetSysInfoNode (env : Env) (s : Session) (node_name node_ip : string)
  : M (option error) :=
  let* c := DialMonitor env s node_name in
  match c with
  | Fail e => ret (Some e)
  | Ok conn =>
    emit (EvGetSysInfo conn) ;;
    let* r := ask (fun t => rpcGetSysInfo env t conn) in
    match r with
    | Fail e =>
      ret (Some (Errorf_w ("failed to retrieve sysinfo from monitor on "
                           +:+ fmtQ env node_name +:+ ": ") e))
    | Ok stream => copyStreamToFile env (sysinfoPath s node_name) (Some stream)
    end
  end.

Definition retriesOrig : nat := 10.

Definition attemptMsg (node_name node_ip : string) (retries : nat) : string :=
  "calling GetSysInfoNode on " +:+ node_name +:+ "/" +:+ node_ip
  +:+ " (remaining retries: " +:+ fmtNat retries +:+ ")".

Definition failureMsg (env : Env) (node_name : string) (e : error) : string :=
  "Error calling GetSysInfoNode " +:+ node_name +:+ " after "
  +:+ fmtNat retriesOrig +:+ " retries (last error:" +:+ sprintfW env e +:+ ")".

(** The inner [for] loop of [GetSysInfoNodes], entered with [retries]
    retries left; it returns the new [errstr]. *)
Fixpoint sysInfoRetry (env : Env) (s : Session) (node_name node_ip : string)
    (errstr : string) (retries : nat) : M string :=
  logPrintf (attemptMsg node_name node_ip retries) ;;
  let* err := GetSysInfoNode env s node_name node_ip in
  match err with
  | None => ret errstr
  | Some e =>
    match retries with
    | O => ret (errstr +:+ nl +:+ failureMsg env node_name e)
    | S retries' =>
      timeSleep 4 ;;
      sysInfoRetry env s node_name node_ip errstr retries'
    end
  end.

Definition fatalMsg (line : string) : string := "filed to parse  line %s" +:+ line.

(** The body of the outer loop, for one row. *)
Definition sysInfoRow (env : Env) (s : Session) (errstr line : string) : M string :=
  match Fields line with
  | [node_name; node_ip] =>
    sysInfoRetry env s node_name node_ip errstr retriesOrig
  | _ => logFatal (fatalMsg line)
  end.

Fixpoint sysInfoRows (env : Env) (s : Session) (errstr : string)
    (lines : list string) : M string :=
  match lines with
  | [] => ret errstr
  | line :: rest =>
    let* errstr' := sysInfoRow env s errstr line in
    sysInfoRows env s errstr' rest
  end.

Definition sysInfoResult (errstr : string) : option error :=
  if (String.length errstr =? 0)%nat then None
  else Some (ErrStr ("GetSysInfoNodes() failed:" +:+ nl +:+ errstr)).

Definition GetSysInfoNodes (env : Env) (s : Session) : M (option error) :=
  let* r := ask (KubeGetNodesAndIps env) in
  match r with
  | Fail e => ret (Some e)
  | Ok lines =>
    let* errstr := sysInfoRows env s EmptyString lines in
    ret (sysInfoResult errstr)
  end.

(** ** The two phases of a collection *)

Definition perfPath (r : RunBenchCtx) (node : string) : string :=
  getDir r +:+ "/perf-" +:+ node +:+ ".tar.bz2".

Definition collectFailedMsg (node : string) (e : error) : string :=
  "collection on monitor " +:+ node +:+ " failed: " +:+ errText e +:+ nl.

Definition writeFailedMsg (node : string) (e : error) : string :=
  "writing collection data from node " +:+ node +:+ " failed: " +:+ errText e +:+ nl.

Definition perfDataMsg (node fname : string) : string :=
  "perf data for " +:+ node +:+ " can be found in: " +:+ fname +:+ nl.

(** The loop of [endCollection] over [r.collectNodes].  The [err] the loop
    body assigns is declared inside the loop; the one the function returns
    after the loop is the outer one, which is nil. *)
Fixpoint endLoop (env : Env) (r : RunBenchCtx) (nodes : list string)
  : M (option error) :=
  match nodes with
  | [] => ret None
  | node :: rest =>
    let* c := DialMonitor env (session r) node in
    match c with
    | Fail e => ret (Some e)
    | Ok conn =>
      emit (EvGetCollectionResults conn (runid r)) ;;
      let* sr := ask (fun t => rpcGetCollectionResults env t conn (runid r)) in
      match snd sr with
      | Some e => logPrintf (collectFailedMsg node e)
      | None => ret tt
      end ;;
      let* err := copyStreamToFile env (perfPath r node) (fst sr) in
      match err with
      | Some e => logPrintf (writeFailedMsg node e)
      | None => logPrintf (perfDataMsg node (perfPath r node))
      end ;;
      endLoop env r rest
    end
  end.

Definition endCollection (env : Env) (r : RunBenchCtx) : M (option error) :=
  endLoop env r (collectNodes r).

(** Take the element at index [i] out of a list. *)
Fixpoint extract {A} (i : nat) (l : list A) {struct l} : option (A * list A) :=
  match l with
  | [] => None
  | x :: l' =>
    match i with
    | O => Some (x, l')
    | S j =>
      match extract j l' with
      | Some (y, r) => Some (y, x :: r)
      | None => None
      end
    end
  end.

(** The order in which [range] visits the keys of a map is not fixed: the
    seed picks, key after key, which of the keys left comes next. *)
Fixpoint rangeOrder {A} (seed : list nat) (l : list A) : list A :=
  match seed with
  | [] => l
  | i :: seed' =>
    match extract (i mod length l) l with
    | Some (x, r) => x :: rangeOrder seed' r
    | None => l
    end
  end.

Definition startedMsg (node : string) : string :=
  "started collection on monitor " +:+ node +:+ nl.

Definition startFailedMsg (node : string) (e : error) : string :=
  "started collection on monitor " +:+ node +:+ " failed: " +:+ errText e +:+ nl.

(** The first loop of [startCollection]: the set of the node names of the
    rows, [a[1]]. *)
Fixpoint podNodes (podsinfo : list (list string)) (nodes : gset string)
  : M (gset string) :=
  match podsinfo with
  | [] => ret nodes
  | a :: rest =>
    logPrintf (" " +:+ fmtStrings a +:+ nl) ;;
    match a !! 1%nat with
    | None => panic "index out of range [1]"
    | Some node => podNodes rest ({[node]} ∪ nodes)
    end
  end.

(** The second loop of [startCollection]; [r] is updated in place. *)
Fixpoint startLoop (env : Env) (r : RunBenchCtx) (nodes : list string)
  : M (RunBenchCtx * option error) :=
  match nodes with
  | [] => ret (r, None)
  | node :: rest =>
    let* c := DialMonitor env (session r) node in
    match c with
    | Fail e => ret (r, Some e)
    | Ok conn =>
      emit (EvStartCollection conn "5" (runid r)) ;;
      let* err := ask (fun t => rpcStartCollection env t conn "5" (runid r)) in
      match err with
      | None =>
        logPrintf (startedMsg node) ;;
        startLoop env (appendNode r node) rest
      | Some e =>
        logPrintf (startFailedMsg node e) ;;
        startLoop env r rest
      end
    end
  end.

Definition startCollection (env : Env) (r : RunBenchCtx)
  : M (RunBenchCtx * option error) :=
  let* p := ask (fun t => KubeGetPods__ env t (podLabels env)) in
  match p with
  | Fail e => ret (r, Some e)
  | Ok podsinfo =>
    logPrintf ("Pods: " +:+ nl) ;;
    let* nodes := podNodes podsinfo ∅ in
    let* seed := ask (rangeSeed env) in
    startLoop env r (rangeOrder seed (elements nodes))
  end.

(** ** Specification: stream transfer *)

(** The chunks a stream delivers before its first error (or its end). *)
Fixpoint delivered (s : Stream) : list bytes :=
  match s with
  | Ok d :: rest => d :: delivered rest
  | _ => []
  end.

Definition received (stream : FileReceiver) : list bytes :=
  match stream with
  | Some s => delivered s
  | None => []
  end.

Definition totalSize (chunks : list bytes) : nat :=
  fold_right (fun c n => length c + n) 0 chunks.


(** ** Specification: endpoint resolution *)

(** The nodes whose endpoint resolution was started, in order: every
    resolution begins with a cluster query that names the node. *)
Definition attemptedNode (e : event) : option string :=
  match e with
  | EvGetNodeIP node => Some node
  | EvGetPodForNode node _ => Some node
  | _ => None
  end.

Definition attemptedNodes (tr : list event) : list string := omap attemptedNode tr.

(** The addresses dialled, in order. *)
Definition dialledAddr (e : event) : option string :=
  match e with
  | EvDial addr => Some addr
  | _ => None
  end.

Definition dialled (tr : list event) : list string := omap dialledAddr tr.

Definition stepState (evs : list event) (n : nat) (st : state) : state :=
  {| tick := tick st + n; files := files st; trace := trace st ++ evs |}.

Definition resolveErr (nodeName : string) (e : error) : error :=
  ErrWrap ("failed to obtain monitor address of node " +:+ nodeName +:+ ": "
           +:+ errText e) e.

Definition connectErr (srvAddr : string) (e : error) : error :=
  ErrWrap ("failed to connect to monitor " +:+ srvAddr +:+ ": " +:+ errText e) e.

(** ** Specification: the fan-out of startCollection *)

(** The run context after the start call on [node] returned [err]. *)
Definition nextCtx (r : RunBenchCtx) (node : string) (err : option error) : RunBenchCtx :=
  match err with
  | None => appendNode r node
  | Some _ => r
  end.

(** The state after the start call on [node], dialled at [conn] in state
    [st], returned [err]: the call and its log line. *)
Definition startState (r : RunBenchCtx) (conn node : string) (err : option error)
    (st : state) : state :=
  stepState [EvStartCollection conn "5" (runid r);
             EvLog match err with
                   | None => startedMsg node
                   | Some e => startFailedMsg node e
                   end] 1 st.

(** ** Specification: the participating set *)

(** During the loop over [nodes], started in state [st], the node [n] was
    reached, its [DialMonitor] gave a connection and its remote
    [StartCollection] call returned nil. *)
Definition startedOk (env : Env) (r : RunBenchCtx) (st : state)
    (nodes : list string) (n : string) : Prop :=
  exists pre post r1 st1 conn st2,
    nodes = pre ++ n :: post
    /\ startLoop env r pre st = (Ret (r1, None), st1)
    /\ DialMonitor env (session r) n st1 = (Ret (Ok conn), st2)
    /\ rpcStartCollection env (tick st2) conn "5" (runid r) = None.

(** ** Specification: from the pods to the loop *)

(** The node names of the rows: the keys of the map [nodes]. *)
Definition rowNodes (podsinfo : list (list string)) : gset string :=
  list_to_set (omap (fun a => a !! 1%nat) podsinfo).

Definition rowLog (a : list string) : event := EvLog (" " +:+ fmtStrings a +:+ nl).

(** The order in which the second loop of [startCollection], entered from
    state [st], goes through the nodes, and the state it starts in. *)
Definition startOrder (env : Env) (st : state) (podsinfo : list (list string))
  : list string :=
  rangeOrder (rangeSeed env (S (tick st))) (elements (rowNodes podsinfo)).

Definition startEntry (st : state) (podsinfo : list (list string)) : state :=
  {| tick := S (S (tick st)); files := files st;
     trace := trace st ++ EvLog ("Pods: " +:+ nl) :: map rowLog podsinfo |}.

(** ** Specification: retrieval *)

(** The state in which the transfer for [node] starts: the retrieval call
    was made from state [st] and, when it returned an error, that was
    logged. *)
Definition retrievalState (r : RunBenchCtx) (conn node : string)
    (err : option error) (st : state) : state :=
  stepState (EvGetCollectionResults conn (runid r)
             :: match err with
                | Some e => [EvLog (collectFailedMsg node e)]
                | None => []
                end) 1 st.

(** The log line that follows the transfer for [node]. *)
Definition transferLog (r : RunBenchCtx) (node : string) (x : option error) : event :=
  EvLog match x with
        | Some e => writeFailedMsg node e
        | None => perfDataMsg node (perfPath r node)
        end.

(** ** Specification: the sysinfo side channel *)

Definition logLine (e : event) : option string :=
  match e with
  | EvLog msg => Some msg
  | _ => None
  end.

(** The lines logged, in order. *)
Definition logsOf (tr : list event) : list string := omap logLine tr.

Definition sleepTime (e : event) : option nat :=
  match e with
  | EvSleep seconds => Some seconds
  | _ => None
  end.

(** The pauses taken, in seconds, in order. *)
Definition sleepsOf (tr : list event) : list nat := omap sleepTime tr.

(** [from, from - 1, ..., from - k]. *)
Fixpoint countdown (from k : nat) : list nat :=
  match k with
  | O => [from]
  | S k' => from :: countdown (pred from) k'
  end.

(** A well-formed row: two fields. *)
Definition wellFormed (line : string) : Prop := length (Fields line) = 2.

(** ** Example worlds *)

Definition dquote : string := String (ascii_of_nat 34) EmptyString.

(** A small cluster.  The nodes in [lost] cannot be resolved (no IP, no
    monitor pod) and no tunnel can be set up to the pod of node z; dials fail
    from tick [downFrom] on, if there is one; the start call fails on the
    addresses in [busy]; every retrieval call returns [results]; the write
    made at tick [faultAt], if there is one, stops after one byte; [lines]
    is the node listing. *)
Definition exWorld (lost : list string) (downFrom : option nat)
    (busy : list string) (results : FileReceiver * option error)
    (faultAt : option nat) (lines : list string) : Env :=
  {| KubeGetNodeIP := fun _ node =>
       if bool_decide (node ∈ lost) then Fail (ErrStr "node not found")
       else Ok ("10.0.0." +:+ node);
     KubeGetPodForNode := fun _ node _ =>
       if bool_decide (node ∈ lost) then Fail (ErrStr "no pod found")
       else Ok ("knb-monitor-" +:+ node);
     KubePortForward := fun _ pod _ =>
       if String.eqb pod "knb-monitor-z" then Fail (ErrStr "port-forward failed")
       else Ok "40123";
     grpcDial := fun t _ =>
       match downFrom with
       | Some t0 =>
         if (t0 <=? t)%nat then Some (ErrStr "connection refused") else None
       | None => None
       end;
     KubeGetNodesAndIps := fun _ => Ok lines;
     podLabels := ["PodName"; "PodNodeName"; "PodPhase"];
     KubeGetPods__ := fun _ _ =>
       Ok [["p1"; "a"; "Running"]; ["p2"; "b"; "Running"]; ["p3"; "a"; "Running"]];
     rangeSeed := fun _ => [];
     rpcStartCollection := fun _ addr _ _ =>
       if bool_decide (addr ∈ busy) then Some (ErrStr "busy") else None;
     rpcGetCollectionResults := fun _ _ _ => results;
     rpcGetSysInfo := fun _ _ => Ok [Ok [Byte.x73; Byte.x79]; Ok [Byte.x73]];
     osOpenFile := fun _ _ => None;
     fileWrite := fun t _ _ =>
       match faultAt with
       | Some t0 =>
         if (t =? t0)%nat then Some (1, ErrStr "no space left on device")
         else None
       | None => None
       end;
     sprintfW := fun e => "%!w(" +:+ errText e +:+ ")";
     fmtQ := fun s => dquote +:+ s +:+ dquote |}.

Definition exLines : list string := ["a 1"; "b 2"; "c 3"].

Definition exPods : list (list string) :=
  [["p1"; "a"; "Running"]; ["p2"; "b"; "Running"]; ["p3"; "a"; "Running"]].

Definition exResults : FileReceiver * option error :=
  (Some [Ok [Byte.x01; Byte.x02]], None).

(** Nothing fails. *)
Definition calmWorld : Env := exWorld [] None [] exResults None exLines.

(** The start call fails on node b. *)
Definition busyWorld : Env := exWorld [] None ["10.0.0.b:8451"] exResults None exLines.

(** No monitor can be dialled. *)
Definition downWorld : Env := exWorld [] (Some 0) [] exResults None exLines.

(** The monitors can be dialled up to tick 7, and no more afterwards. *)
Definition lateDownWorld : Env := exWorld [] (Some 8) [] exResults None exLines.

(** Node b cannot be resolved. *)
Definition lostWorld : Env := exWorld ["b"] None [] exResults None exLines.

(** Every retrieval call fails, and hands out no stream. *)
Definition nilWorld : Env :=
  exWorld [] None [] (None, Some (ErrStr "unavailable")) None exLines.

(** Every retrieval stream breaks after its first chunk. *)
Definition resetWorld : Env :=
  exWorld [] None []
    (Some [Ok [Byte.x01]; Fail (ErrStr "stream reset")], None) None exLines.

(** The write made at tick 3 fails. *)
Definition faultWorld : Env := exWorld [] None [] exResults (Some 3) exLines.

(** The second row of the node listing has three fields. *)
Definition oddWorld : Env :=
  exWorld [] None [] exResults None ["a 1"; "b 2 x"; "c 3"].

Definition exState : state :=
  {| tick := 0; files := {[ "/s/old.sysinfo" := [Byte.x00] ]}; trace := [] |}.

Definition directSession : Session := {| dir := "/s"; portForward := false |}.
Definition tunnelSession : Session := {| dir := "/s"; portForward := true |}.

Definition exRun : RunBenchCtx :=
  {| session := directSession; runid := "r1"; getDir := "/s/r1";
     collectNodes := [] |}.

Definition exRunAB : RunBenchCtx :=
  {| session := directSession; runid := "r1"; getDir := "/s/r1";
     collectNodes := ["a"; "b"] |}.


(** ** The monitor manifest *)








(** ** Specification: the monitor manifest *)



(** ** Specification: what a run leaves in the trace *)

(** The events of endpoint resolution and dial. *)
Definition resolutionEvent (e : event) : Prop :=
  match e with
  | EvGetNodeIP _ | EvGetPodForNode _ _ | EvPortForward _ _ | EvDial _ => True
  | _ => False
  end.

(** The events [DialMonitor] may leave for [node] with direct connectivity. *)
Definition directEvent (node : string) (e : event) : Prop :=
  match e with
  | EvGetNodeIP n => n = node
  | EvDial _ => True
  | _ => False
  end.

(** The events [DialMonitor] may leave for [node] with tunnelled
    connectivity. *)
Definition tunnelEvent (node : string) (e : event) : Prop :=
  match e with
  | EvGetPodForNode n selector => n = node /\ selector = "role=monitor"
  | EvPortForward _ port => port = "8451"
  | EvDial _ => True
  | _ => False
  end.

(** The events [startCollection] may leave for the run [r]. *)
Definition startEvent (r : RunBenchCtx) (e : event) : Prop :=
  match e with
  | EvLog _ => True
  | EvStartCollection _ duration collectionId =>
    duration = "5" /\ collectionId = runid r
  | EvSleep _ | EvGetCollectionResults _ _ | EvGetSysInfo _ | EvOpenFile _ => False
  | _ => True
  end.

(** The events [endCollection] may leave for the run [r]. *)
Definition endEvent (r : RunBenchCtx) (e : event) : Prop :=
  match e with
  | EvLog _ => True
  | EvGetCollectionResults _ collectionId => collectionId = runid r
  | EvOpenFile path => exists node, node ∈ collectNodes r /\ path = perfPath r node
  | EvSleep _ | EvStartCollection _ _ _ | EvGetSysInfo _ => False
  | _ => True
  end.

Definition openedPath (e : event) : option string :=
  match e with
  | EvOpenFile path => Some path
  | _ => None
  end.

(** The files opened, in order. *)
Definition opened (tr : list event) : list string := omap openedPath tr.

(** The entry of the error text for each node that failed for good. *)
Definition failureEntries (env : Env) (fails : list (string * error)) : string :=
  fold_right (fun f acc => nl +:+ failureMsg env f.1 f.2 +:+ acc) EmptyString fails.

(** The node name of a well-formed row of the node listing. *)
Definition rowName (line : string) : string := default EmptyString (head (Fields line)).

(** ** More example worlds *)

(** The calm world, with a pod listing whose second row has one field. *)
Definition shortRowWorld : Env :=
  {| KubeGetNodeIP := KubeGetNodeIP calmWorld;
     KubeGetPodForNode := KubeGetPodForNode calmWorld;
     KubePortForward := KubePortForward calmWorld;
     grpcDial := grpcDial calmWorld;
     KubeGetNodesAndIps := KubeGetNodesAndIps calmWorld;
     podLabels := podLabels calmWorld;
     KubeGetPods__ := fun _ _ =>
       Ok [["p1"; "a"; "Running"]; ["p2"]; ["p3"; "b"; "Running"]];
     rangeSeed := rangeSeed calmWorld;
     rpcStartCollection := rpcStartCollection calmWorld;
     rpcGetCollectionResults := rpcGetCollectionResults calmWorld;
     rpcGetSysInfo := rpcGetSysInfo calmWorld;
     osOpenFile := osOpenFile calmWorld;
     fileWrite := fileWrite calmWorld;
     sprintfW := sprintfW calmWorld;
     fmtQ := fmtQ calmWorld |}.


(** ** Specification: the retry loop, call by call *)

(** [failedCalls env s name ip retries st k stb]: entered in state [st]
    with [retries] retries left, the loop makes [k] calls on the node, each
    announced with the number of retries left at that point, each returning
    an error and each followed by a pause of 4 seconds; [stb] is the state
    after the last of these pauses, where the next call is about to be
    announced.  With [k = 0] no call has been made yet. *)
Inductive failedCalls (env : Env) (s : Session) (name ip : string) :
  nat -> state -> nat -> state -> Prop :=
| failedCalls_none retries st :
    failedCalls env s name ip retries st 0 st
| failedCalls_more retries st e st1 k stb :
    GetSysInfoNode env s name ip
      (emitState (EvLog (attemptMsg name ip (S retries))) st) = (Ret (Some e), st1) ->
    failedCalls env s name ip retries (emitState (EvSleep 4) st1) k stb ->
    failedCalls env s name ip (S retries) st (S k) stb.

(** [rowsRun env s lines st outs st']: the rows [lines] of the node listing
    are gone through from state [st] to state [st'].  For each row, in
    order, [outs] holds the node and what the last call on it returned:
    that call follows [k] failed calls, and an error is final only once the
    10 retries are used up. *)
Inductive rowsRun (env : Env) (s : Session) :
  list string -> state -> list (string * option error) -> state -> Prop :=
| rowsRun_nil st : rowsRun env s [] st [] st
| rowsRun_cons line rest name ip st k stb x st1 outs st' :
    Fields line = [name; ip] ->
    failedCalls env s name ip retriesOrig st k stb ->
    GetSysInfoNode env s name ip
      (emitState (EvLog (attemptMsg name ip (retriesOrig - k))) stb) = (Ret x, st1) ->
    (x = None \/ k = retriesOrig) ->
    rowsRun env s rest st1 outs st' ->
    rowsRun env s (line :: rest) st ((name, x) :: outs) st'.

(** The nodes whose last call failed, each with the error of that call, in
    the order of the rows. *)
Definition finalFailures (outs : list (string * option error)) : list (string * error) :=
  omap (fun o => match o.2 with Some e => Some (o.1, e) | None => None end) outs.

(** * Properties *)

(** ** Strings *)

Lemma string_app_assoc (a b c : string) : (a +:+ b) +:+ c = a +:+ b +:+ c.
Proof.
  induction a as [|x a IH]; [reflexivity|].
  change (String x ((a +:+ b) +:+ c) = String x (a +:+ b +:+ c)).
  f_equal. exact IH.
Qed.

(** ** Stream transfer *)

Lemma length_concat_totalSize (chunks : list bytes) :
  length (concat chunks) = totalSize chunks.
Proof.
  induction chunks as [|c cs IH]; simpl; [reflexivity|].
  rewrite length_app, IH. reflexivity.
Qed.

Lemma totalSize_app (l1 l2 : list bytes) :
  totalSize (l1 ++ l2) = totalSize l1 + totalSize l2.
Proof.
  induction l1 as [|c cs IH]; simpl; [reflexivity|]. rewrite IH. lia.
Qed.

Lemma appendBytes_files fname data st old :
  files st !! fname = Some old ->
  files (appendBytes fname data st) = <[fname := old ++ data]> (files st).
Proof. intros H. unfold appendBytes. simpl. rewrite H. reflexivity. Qed.


Lemma openAppend_ok env fname st :
  osOpenFile env (tick st) fname = None ->
  openAppend env fname st =
  (Ret None,
   {| tick := S (tick st);
      files := <[fname := default [] (files st !! fname)]> (files st);
      trace := trace st ++ [EvOpenFile fname] |}).
Proof.
  intros H. unfold openAppend, bind, emit, ask. simpl. rewrite H. reflexivity.
Qed.

Lemma openAppend_fail env fname st e :
  osOpenFile env (tick st) fname = Some e ->
  openAppend env fname st =
  (Ret (Some e),
   {| tick := S (tick st); files := files st;
      trace := trace st ++ [EvOpenFile fname] |}).
Proof.
  intros H. unfold openAppend, bind, emit, ask. simpl. rewrite H. reflexivity.
Qed.



(** A loop that returns nil has written every chunk the stream delivered. *)
Lemma copyLoop_success env fname s st st' old :
  files st !! fname = Some old ->
  copyLoop env fname s st = (Ret None, st') ->
  files st' = <[fname := old ++ concat (delivered s)]> (files st).
Proof.
  revert st old. induction s as [|r s IH]; intros st old Hold Hrun.
  - simpl in Hrun. injection Hrun as <-. simpl.
    rewrite app_nil_r. symmetry. apply insert_id, Hold.
  - destruct r as [d|e]; simpl in Hrun.
    + unfold bind, writeAppend, ask, bind in Hrun. simpl in Hrun.
      destruct (fileWrite env (tick st) fname d) as [[n e]|] eqn:Hw.
      * discriminate Hrun.
      * apply (IH _ (old ++ d)) in Hrun.
        -- rewrite Hrun. simpl. rewrite Hold. simpl.
           rewrite insert_insert_eq, <- app_assoc. reflexivity.
        -- simpl. rewrite Hold. simpl. apply lookup_insert_eq.
    + destruct (isEOF e); [|discriminate Hrun].
      injection Hrun as <-. simpl.
      rewrite app_nil_r. symmetry. apply insert_id, Hold.
Qed.

Lemma copyStreamToFile_success env fname stream st st' :
  copyStreamToFile env fname stream st = (Ret None, st') ->
  files st' =
  <[fname := default [] (files st !! fname) ++ concat (received stream)]> (files st).
Proof.
  intros Hrun. unfold copyStreamToFile, bind in Hrun.
  destruct (osOpenFile env (tick st) fname) as [e|] eqn:Ho.
  - rewrite (openAppend_fail _ _ _ _ Ho) in Hrun. discriminate Hrun.
  - rewrite (openAppend_ok _ _ _ Ho) in Hrun.
    destruct stream as [s|]; [|discriminate Hrun].
    apply (copyLoop_success _ _ _ _ _ (default [] (files st !! fname))) in Hrun.
    + rewrite Hrun. simpl. apply insert_insert_eq.
    + simpl. apply lookup_insert_eq.
Qed.

(** C8.  Two successful calls on the same path accumulate: the file holds
    what it held before, then the bytes of the first call, then the bytes
    of the second, and its length has grown by the sizes of all the chunks
    delivered. *)
Theorem copyStreamToFile_accumulates env fname stream1 stream2 st st1 st2 :
  copyStreamToFile env fname stream1 st = (Ret None, st1) ->
  copyStreamToFile env fname stream2 st1 = (Ret None, st2) ->
  let old := default [] (files st !! fname) in
  files st2 !! fname
  = Some (old ++ concat (received stream1) ++ concat (received stream2))
  /\ length (default [] (files st2 !! fname))
     = length old + totalSize (received stream1 ++ received stream2).
Proof.
  intros H1 H2 old.
  apply copyStreamToFile_success in H1, H2.
  assert (Hf : files st2 !! fname
               = Some (old ++ concat (received stream1) ++ concat (received stream2))).
  { rewrite H2, lookup_insert_eq, H1, lookup_insert_eq. simpl.
    rewrite <- app_assoc. reflexivity. }
  split; [exact Hf|].
  rewrite Hf. simpl.
  rewrite !length_app, !length_concat_totalSize, totalSize_app. lia.
Qed.

(** ** Endpoint resolution *)

Lemma srvAddrForNode_direct env s node st :
  portForward s = false ->
  srvAddrForNode env s node st =
  (Ret match KubeGetNodeIP env (tick st) node with
       | Ok nodeIP => Ok (JoinHostPort nodeIP monitorPort)
       | Fail e => Fail e
       end,
   stepState [EvGetNodeIP node] 1 st).
Proof.
  intros Hpf. unfold srvAddrForNode, stepState. rewrite Hpf. simpl.
  unfold bind, emit, ask, ret. simpl.
  rewrite Nat.add_1_r.
  destruct (KubeGetNodeIP env (tick st) node); reflexivity.
Qed.

Lemma srvAddrForNode_tunnel env s node st :
  portForward s = true ->
  srvAddrForNode env s node st =
  match KubeGetPodForNode env (tick st) node monitorSelector with
  | Fail e => (Ret (Fail e), stepState [EvGetPodForNode node monitorSelector] 1 st)
  | Ok pod =>
    (Ret match KubePortForward env (S (tick st)) pod monitorPort with
         | Ok port => Ok (JoinHostPort "localhost" port)
         | Fail e => Fail e
         end,
     stepState [EvGetPodForNode node monitorSelector;
                EvPortForward pod monitorPort] 2 st)
  end.
Proof.
  intros Hpf. unfold srvAddrForNode, stepState. rewrite Hpf. simpl.
  unfold bind, emit, ask, ret. simpl.
  destruct (KubeGetPodForNode env (tick st) node monitorSelector) as [pod|e]; simpl.
  - replace (tick st + 2) with (S (S (tick st))) by lia.
    destruct (KubePortForward env (S (tick st)) pod monitorPort);
      unfold tickState, emitState; simpl; rewrite <- app_assoc; reflexivity.
  - rewrite Nat.add_1_r. reflexivity.
Qed.

(** Resolution always returns, asks the cluster about the node first and
    dials nothing. *)
Lemma srvAddrForNode_trace env s node st :
  exists a st',
    srvAddrForNode env s node st = (Ret a, st')
    /\ files st' = files st
    /\ attemptedNodes (trace st') = attemptedNodes (trace st) ++ [node]
    /\ dialled (trace st') = dialled (trace st).
Proof.
  destruct (portForward s) eqn:Hpf.
  - rewrite (srvAddrForNode_tunnel _ _ _ _ Hpf).
    destruct (KubeGetPodForNode env (tick st) node monitorSelector) as [pod|e];
      eexists _, _; (split; [reflexivity|]); simpl;
      unfold attemptedNodes, dialled; rewrite !omap_app; simpl;
      rewrite ?app_nil_r; auto.
  - rewrite (srvAddrForNode_direct _ _ _ _ Hpf).
    eexists _, _; (split; [reflexivity|]); simpl.
    unfold attemptedNodes, dialled; rewrite !omap_app; simpl.
    rewrite ?app_nil_r; auto.
Qed.

Lemma DialMonitor_unfold env s node st a st1 :
  srvAddrForNode env s node st = (Ret a, st1) ->
  DialMonitor env s node st =
  match a with
  | Fail e => (Ret (Fail (resolveErr node e)), st1)
  | Ok srvAddr =>
    (Ret match grpcDial env (tick st1) srvAddr with
         | Some e => Fail (connectErr srvAddr e)
         | None => Ok srvAddr
         end,
     stepState [EvDial srvAddr] 1 st1)
  end.
Proof.
  intros Hr. unfold DialMonitor, bind. rewrite Hr.
  destruct a as [srvAddr|e].
  - unfold emit, ask, ret, stepState, connectErr, Errorf_w. simpl.
    rewrite Nat.add_1_r.
    destruct (grpcDial env (tick st1) srvAddr);
      rewrite ?string_app_assoc; reflexivity.
  - unfold ret, resolveErr, Errorf_w.
    rewrite !string_app_assoc. reflexivity.
Qed.

(** [DialMonitor] always returns; it leaves the files alone and marks the
    node as attempted. *)
Lemma DialMonitor_trace env s node st :
  exists c st',
    DialMonitor env s node st = (Ret c, st')
    /\ files st' = files st
    /\ attemptedNodes (trace st') = attemptedNodes (trace st) ++ [node].
Proof.
  destruct (srvAddrForNode_trace env s node st) as (a & st1 & Hr & Hf & Ha & _).
  rewrite (DialMonitor_unfold _ _ _ _ _ _ Hr).
  destruct a as [srvAddr|e]; eexists _, _; (split; [reflexivity|]); simpl.
  - split; [exact Hf|].
    unfold attemptedNodes in *. rewrite omap_app, Ha. simpl.
    rewrite app_nil_r. reflexivity.
  - auto.
Qed.

(** C7.  Endpoint resolution.  With direct connectivity the endpoint is the
    node's IP joined with the monitor port 8451, and resolution fails when
    the IP cannot be determined.  With tunnelled connectivity the endpoint
    is localhost joined with the forwarded local port, and resolution fails
    when the cluster finds no pod for the selector [role=monitor] on the
    node or when the tunnel cannot be set up.  Whenever resolution fails,
    [DialMonitor] returns that error (wrapped, as its cause) and dials
    nothing: it stops in the state resolution ended in. *)
Theorem resolution_spec env s node st :
  (portForward s = false ->
     (forall ip, KubeGetNodeIP env (tick st) node = Ok ip ->
        fst (srvAddrForNode env s node st) = Ret (Ok (JoinHostPort ip "8451")))
     /\ (forall e, KubeGetNodeIP env (tick st) node = Fail e ->
        fst (srvAddrForNode env s node st) = Ret (Fail e)))
  /\ (portForward s = true ->
     (forall e, KubeGetPodForNode env (tick st) node "role=monitor" = Fail e ->
        fst (srvAddrForNode env s node st) = Ret (Fail e))
     /\ (forall pod e,
        KubeGetPodForNode env (tick st) node "role=monitor" = Ok pod ->
        KubePortForward env (S (tick st)) pod "8451" = Fail e ->
        fst (srvAddrForNode env s node st) = Ret (Fail e))
     /\ (forall pod port,
        KubeGetPodForNode env (tick st) node "role=monitor" = Ok pod ->
        KubePortForward env (S (tick st)) pod "8451" = Ok port ->
        fst (srvAddrForNode env s node st)
        = Ret (Ok (JoinHostPort "localhost" port))))
  /\ (forall e st1,
     srvAddrForNode env s node st = (Ret (Fail e), st1) ->
     DialMonitor env s node st = (Ret (Fail (resolveErr node e)), st1)
     /\ causes (resolveErr node e) = resolveErr node e :: causes e
     /\ dialled (trace st1) = dialled (trace st)).
Proof.
  split; [|split].
  - intros Hpf. rewrite (srvAddrForNode_direct _ _ _ _ Hpf). simpl.
    split; intros x Hx; rewrite Hx; reflexivity.
  - intros Hpf. rewrite (srvAddrForNode_tunnel _ _ _ _ Hpf).
    change monitorSelector with "role=monitor".
    change monitorPort with "8451".
    split; [|split].
    + intros e He. rewrite He. reflexivity.
    + intros pod e Hp He. rewrite Hp. simpl. rewrite He. reflexivity.
    + intros pod port Hp Hq. rewrite Hp. simpl. rewrite Hq. reflexivity.
  - intros e st1 Hr. split; [|split].
    + rewrite (DialMonitor_unfold _ _ _ _ _ _ Hr). reflexivity.
    + reflexivity.
    + destruct (srvAddrForNode_trace env s node st) as (a & st' & Hr' & _ & _ & Hd).
      rewrite Hr in Hr'. injection Hr' as _ <-. exact Hd.
Qed.

(** ** Frame properties of the transfer *)

Lemma insert_keeps (m : gmap string bytes) f v p :
  is_Some (m !! p) -> is_Some (<[f := v]> m !! p).
Proof.
  intros H. destruct (decide (f = p)) as [->|Hne].
  - rewrite lookup_insert_eq. eauto.
  - rewrite lookup_insert_ne; auto.
Qed.

(** The loop always returns; it logs nothing and removes no file. *)
Lemma copyLoop_frame env fname s st :
  exists x st',
    copyLoop env fname s st = (Ret x, st')
    /\ trace st' = trace st
    /\ (forall p, is_Some (files st !! p) -> is_Some (files st' !! p)).
Proof.
  revert st. induction s as [|r s IH]; intros st.
  - eexists _, _. split; [reflexivity|]. auto.
  - destruct r as [d|e]; simpl.
    + unfold bind, writeAppend, ask, bind. simpl.
      destruct (fileWrite env (tick st) fname d) as [[n e]|].
      * eexists _, _. split; [reflexivity|]. simpl. split; [reflexivity|].
        intros p Hp. apply insert_keeps, Hp.
      * destruct (IH (appendBytes fname d (tickState st))) as (x & st' & Hrun & Ht & Hf).
        exists x, st'. split; [exact Hrun|]. split; [exact Ht|].
        intros p Hp. apply Hf. simpl. apply insert_keeps, Hp.
    + destruct (isEOF e); eexists _, _; (split; [reflexivity|]); auto.
Qed.

(** [copyStreamToFile] leaves one event, the opening of the file.  It
    removes no file, never exits, and panics only on a nil stream. *)
Lemma copyStreamToFile_frame env fname stream st o st' :
  copyStreamToFile env fname stream st = (o, st') ->
  trace st' = trace st ++ [EvOpenFile fname]
  /\ (forall p, is_Some (files st !! p) -> is_Some (files st' !! p))
  /\ match o with
     | Ret x => x = None -> is_Some (files st' !! fname)
     | Panic _ => stream = None
     | Exit _ => False
     end.
Proof.
  intros Hrun. unfold copyStreamToFile, bind in Hrun.
  destruct (osOpenFile env (tick st) fname) as [e|] eqn:Ho.
  - rewrite (openAppend_fail _ _ _ _ Ho) in Hrun.
    injection Hrun as <- <-. simpl. repeat split; auto. discriminate.
  - rewrite (openAppend_ok _ _ _ Ho) in Hrun.
    destruct stream as [s|].
    + match type of Hrun with copyLoop _ _ _ ?st1 = _ =>
        destruct (copyLoop_frame env fname s st1) as (x & st2 & Hl & Ht & Hf)
      end.
      rewrite Hl in Hrun. injection Hrun as <- <-.
      split; [rewrite Ht; reflexivity|]. split.
      * intros p Hp. apply Hf. simpl. apply insert_keeps, Hp.
      * intros _. apply Hf. simpl. rewrite lookup_insert_eq. eauto.
    + injection Hrun as <- <-. simpl. repeat split; auto.
      intros p Hp. apply insert_keeps, Hp.
Qed.

Lemma copyStreamToFile_returns env fname s st :
  exists x st', copyStreamToFile env fname (Some s) st = (Ret x, st').
Proof.
  destruct (copyStreamToFile env fname (Some s) st) as [o st'] eqn:Hrun.
  destruct (copyStreamToFile_frame _ _ _ _ _ _ Hrun) as (_ & _ & Ho).
  destruct o as [x|m|n]; [eauto | discriminate Ho | destruct Ho].
Qed.

(** ** Iteration order of a map *)

Lemma extract_Permutation {A} (i : nat) (l : list A) x r :
  extract i l = Some (x, r) -> Permutation l (x :: r).
Proof.
  revert i x r. induction l as [|y l IH]; intros i x r H; simpl in H.
  - discriminate H.
  - destruct i as [|j].
    + injection H as <- <-. reflexivity.
    + destruct (extract j l) as [[z r']|] eqn:He; [|discriminate H].
      injection H as <- <-. rewrite (IH _ _ _ He). apply perm_swap.
Qed.

(** Whatever the seed, [range] visits every key once. *)
Lemma rangeOrder_Permutation {A} (seed : list nat) (l : list A) :
  Permutation (rangeOrder seed l) l.
Proof.
  revert l. induction seed as [|i seed IH]; intros l; simpl; [reflexivity|].
  destruct (extract (i mod length l) l) as [[x r]|] eqn:He; [|reflexivity].
  rewrite (IH r). symmetry. apply (extract_Permutation _ _ _ _ He).
Qed.

(** ** startCollection: the fan-out *)

(** One turn of the loop. *)
Lemma startLoop_step env r node rest st c st1 :
  DialMonitor env (session r) node st = (Ret c, st1) ->
  startLoop env r (node :: rest) st =
  match c with
  | Fail e => (Ret (r, Some e), st1)
  | Ok conn =>
    let err := rpcStartCollection env (tick st1) conn "5" (runid r) in
    startLoop env (nextCtx r node err) rest (startState r conn node err st1)
  end.
Proof.
  intros Hd. simpl. unfold bind at 1. rewrite Hd.
  destruct c as [conn|e]; [|reflexivity].
  unfold bind, emit, ask, logPrintf, emit. simpl.
  destruct (rpcStartCollection env (tick st1) conn "5" (runid r)); simpl;
    f_equal; unfold startState, stepState, tickState, emitState; simpl;
    rewrite <- app_assoc, Nat.add_1_r; reflexivity.
Qed.

Lemma startState_attempted r conn node err st :
  attemptedNodes (trace (startState r conn node err st)) = attemptedNodes (trace st).
Proof.
  unfold attemptedNodes, startState, stepState. simpl.
  rewrite omap_app. simpl. apply app_nil_r.
Qed.

Lemma nextCtx_fields r node err :
  session (nextCtx r node err) = session r
  /\ runid (nextCtx r node err) = runid r
  /\ getDir (nextCtx r node err) = getDir r.
Proof. destruct err; auto. Qed.

(** The loop always returns. *)
Lemma startLoop_returns env r nodes st :
  exists r' err st',
    startLoop env r nodes st = (Ret (r', err), st')
    /\ session r' = session r /\ runid r' = runid r /\ getDir r' = getDir r.
Proof.
  revert r st. induction nodes as [|node rest IH]; intros r st.
  - eexists _, _, _. split; [reflexivity|]. auto.
  - destruct (DialMonitor_trace env (session r) node st) as (c & st1 & Hd & _).
    rewrite (startLoop_step _ _ _ _ _ _ _ Hd).
    destruct c as [conn|e].
    + cbv zeta.
      destruct (nextCtx_fields r node (rpcStartCollection env (tick st1) conn "5" (runid r)))
        as (Hs & Hr & Hg).
      destruct (IH (nextCtx r node (rpcStartCollection env (tick st1) conn "5" (runid r)))
                   (startState r conn node
                      (rpcStartCollection env (tick st1) conn "5" (runid r)) st1))
        as (r' & err & st' & Hrun & Hs' & Hr' & Hg').
      exists r', err, st'. split; [exact Hrun|].
      rewrite Hs', Hr', Hg'. auto.
    + eexists _, _, _. split; [reflexivity|]. auto.
Qed.

(** Once the nodes of [pre] are gone through, the loop carries on with the
    rest. *)
Lemma startLoop_app env r pre post st r1 st1 :
  startLoop env r pre st = (Ret (r1, None), st1) ->
  startLoop env r (pre ++ post) st = startLoop env r1 post st1.
Proof.
  revert r st. induction pre as [|node pre IH]; intros r st Hrun.
  - simpl in Hrun. injection Hrun as <- <-. reflexivity.
  - destruct (DialMonitor_trace env (session r) node st) as (c & st2 & Hd & _).
    rewrite <- app_comm_cons.
    rewrite (startLoop_step _ _ _ _ _ _ _ Hd).
    rewrite (startLoop_step _ _ _ _ _ _ _ Hd) in Hrun.
    destruct c as [conn|e]; [|discriminate Hrun].
    apply IH, Hrun.
Qed.

(** What the loop returns tells how far it went: nil after every node was
    attempted; otherwise the error of the first node whose [DialMonitor]
    failed, in the state that call ended in. *)
Lemma startLoop_attempted env r nodes st r' err st' :
  startLoop env r nodes st = (Ret (r', err), st') ->
  match err with
  | None => attemptedNodes (trace st') = attemptedNodes (trace st) ++ nodes
  | Some e =>
    exists pre n post st1,
      nodes = pre ++ n :: post
      /\ startLoop env r pre st = (Ret (r', None), st1)
      /\ DialMonitor env (session r) n st1 = (Ret (Fail e), st')
      /\ attemptedNodes (trace st') = attemptedNodes (trace st) ++ pre ++ [n]
  end.
Proof.
  revert r st. induction nodes as [|node rest IH]; intros r st Hrun.
  - simpl in Hrun. injection Hrun as <- <- <-. symmetry. apply app_nil_r.
  - destruct (DialMonitor_trace env (session r) node st) as (c & st2 & Hd & _ & Ha).
    rewrite (startLoop_step _ _ _ _ _ _ _ Hd) in Hrun.
    destruct c as [conn|e].
    + cbv zeta in Hrun.
      set (rpc := rpcStartCollection env (tick st2) conn "5" (runid r)) in *.
      pose proof (IH _ _ Hrun) as Hrest.
      destruct (nextCtx_fields r node rpc) as (Hs & _).
      destruct err as [e|].
      * destruct Hrest as (pre & n & post & st1 & -> & Hpre & Hn & Hatt).
        exists (node :: pre), n, post, st1. split; [reflexivity|].
        split; [|split].
        -- rewrite (startLoop_step _ _ _ _ _ _ _ Hd). exact Hpre.
        -- rewrite <- Hs. exact Hn.
        -- rewrite Hatt, startState_attempted, Ha, <- !app_assoc. reflexivity.
      * rewrite Hrest, startState_attempted, Ha, <- app_assoc. reflexivity.
    + injection Hrun as <- <- <-.
      exists [], node, rest, st. repeat split; auto.
Qed.

(** ** The participating set *)

Lemma startedOk_nil env r st n : ~ startedOk env r st [] n.
Proof.
  intros (pre & post & _ & _ & _ & _ & Hn & _).
  destruct pre; discriminate Hn.
Qed.

Lemma startedOk_dial_failed env r st node rest n e st2 :
  DialMonitor env (session r) node st = (Ret (Fail e), st2) ->
  ~ startedOk env r st (node :: rest) n.
Proof.
  intros Hd (pre & post & r1 & st1 & conn & st3 & Hn & Hpre & Hdn & _).
  destruct pre as [|x pre].
  - injection Hn as -> ->. simpl in Hpre. injection Hpre as <- <-.
    rewrite Hd in Hdn. discriminate Hdn.
  - injection Hn as <- _.
    rewrite (startLoop_step _ _ _ _ _ _ _ Hd) in Hpre. discriminate Hpre.
Qed.

Lemma startedOk_cons env r st node rest n conn st2 :
  DialMonitor env (session r) node st = (Ret (Ok conn), st2) ->
  let err := rpcStartCollection env (tick st2) conn "5" (runid r) in
  startedOk env r st (node :: rest) n
  <-> (n = node /\ err = None)
      \/ startedOk env (nextCtx r node err) (startState r conn node err st2) rest n.
Proof.
  intros Hd err.
  destruct (nextCtx_fields r node err) as (Hs & Hr & _).
  split.
  - intros (pre & post & r1 & st1 & conn' & st3 & Hn & Hpre & Hdn & Hrpc).
    destruct pre as [|x pre].
    + injection Hn as -> ->. simpl in Hpre. injection Hpre as <- <-.
      rewrite Hd in Hdn. injection Hdn as <- <-. left. auto.
    + injection Hn as <- ->.
      rewrite (startLoop_step _ _ _ _ _ _ _ Hd) in Hpre.
      right. exists pre, post, r1, st1, conn', st3.
      rewrite Hs, Hr. auto.
  - intros [[-> Herr] | (pre & post & r1 & st1 & conn' & st3 & -> & Hpre & Hdn & Hrpc)].
    + exists [], rest, r, st, conn, st2. auto.
    + exists (node :: pre), post, r1, st1, conn', st3.
      rewrite Hs in Hdn. rewrite Hr in Hrpc.
      rewrite (startLoop_step _ _ _ _ _ _ _ Hd). auto.
Qed.

(** The loop only appends to [collectNodes], and it appends exactly the
    nodes whose start call returned nil, in the order it went through
    them. *)
Lemma startLoop_collect env r nodes st r' err st' :
  startLoop env r nodes st = (Ret (r', err), st') ->
  exists added,
    collectNodes r' = collectNodes r ++ added
    /\ sublist added nodes
    /\ forall n, n ∈ added <-> startedOk env r st nodes n.
Proof.
  revert r st. induction nodes as [|node rest IH]; intros r st Hrun.
  - simpl in Hrun. injection Hrun as <- <- <-.
    exists []. split; [symmetry; apply app_nil_r|]. split; [constructor|].
    intros n. rewrite elem_of_nil. split; [tauto|]. apply startedOk_nil.
  - destruct (DialMonitor_trace env (session r) node st) as (c & st2 & Hd & _).
    rewrite (startLoop_step _ _ _ _ _ _ _ Hd) in Hrun.
    destruct c as [conn|e].
    + cbv zeta in Hrun.
      destruct (IH _ _ Hrun) as (added & Hc & Hsub & Hiff).
      pose proof (startedOk_cons env r st node rest) as Hcons.
      specialize (fun n => Hcons n conn st2 Hd). cbv zeta in Hcons.
      destruct (rpcStartCollection env (tick st2) conn "5" (runid r)) as [e|] eqn:Hrpc.
      * exists added. split; [exact Hc|]. split; [apply sublist_cons, Hsub|].
        intros n. rewrite Hcons, <- Hiff. split; [auto|].
        intros [[_ H]|H]; [discriminate H|exact H].
      * exists (node :: added). simpl in Hc. split.
        { rewrite Hc, <- app_assoc. reflexivity. }
        split; [apply sublist_skip, Hsub|].
        intros n. rewrite Hcons, <- Hiff, elem_of_cons. tauto.
    + injection Hrun as <- <- <-.
      exists []. split; [symmetry; apply app_nil_r|]. split; [apply sublist_nil_l|].
      intros n. rewrite elem_of_nil. split; [tauto|].
      apply (startedOk_dial_failed _ _ _ _ _ _ _ _ Hd).
Qed.

(** ** startCollection: from the pods to the loop *)

Lemma podNodes_ok podsinfo nodes st :
  Forall (fun a => is_Some (a !! 1%nat)) podsinfo ->
  podNodes podsinfo nodes st =
  (Ret (rowNodes podsinfo ∪ nodes),
   {| tick := tick st; files := files st;
      trace := trace st ++ map rowLog podsinfo |}).
Proof.
  intros Hrows. revert nodes st.
  induction Hrows as [|a rest [node Ha] _ IH]; intros nodes st.
  - simpl. unfold ret, rowNodes. simpl. rewrite app_nil_r.
    f_equal; [f_equal; symmetry; apply (left_id_L ∅ (∪)) | destruct st; reflexivity].
  - simpl. unfold bind, logPrintf, emit. simpl. rewrite Ha.
    rewrite IH. unfold rowNodes. simpl. rewrite Ha. simpl.
    rewrite <- app_assoc. f_equal. f_equal.
    rewrite (assoc_L (∪)).
    rewrite (comm_L (∪) (list_to_set (omap (fun a => a !! 1%nat) rest)) {[node]}).
    reflexivity.
Qed.

Lemma attemptedNodes_rowLogs podsinfo :
  attemptedNodes (map rowLog podsinfo) = [].
Proof. induction podsinfo as [|a l IH]; [reflexivity | exact IH]. Qed.

Lemma startEntry_attempted st podsinfo :
  attemptedNodes (trace (startEntry st podsinfo)) = attemptedNodes (trace st).
Proof.
  unfold attemptedNodes, startEntry. simpl. rewrite omap_app. simpl.
  fold (attemptedNodes (map rowLog podsinfo)).
  rewrite attemptedNodes_rowLogs. apply app_nil_r.
Qed.

Lemma startCollection_unfold env r st podsinfo :
  KubeGetPods__ env (tick st) (podLabels env) = Ok podsinfo ->
  Forall (fun a => is_Some (a !! 1%nat)) podsinfo ->
  startCollection env r st
  = startLoop env r (startOrder env st podsinfo) (startEntry st podsinfo).
Proof.
  intros Hpods Hrows. unfold startCollection, bind, ask. simpl. rewrite Hpods.
  unfold logPrintf, emit. simpl.
  rewrite (podNodes_ok _ _ _ Hrows). simpl.
  unfold startOrder, startEntry, tickState. simpl.
  rewrite <- app_assoc. simpl.
  rewrite (right_id_L ∅ (∪)). reflexivity.
Qed.

Lemma startOrder_nodes env st podsinfo :
  NoDup (startOrder env st podsinfo)
  /\ forall n, n ∈ startOrder env st podsinfo
               <-> exists a, a ∈ podsinfo /\ a !! 1%nat = Some n.
Proof.
  unfold startOrder.
  pose proof (rangeOrder_Permutation (rangeSeed env (S (tick st)))
                (elements (rowNodes podsinfo))) as Hp.
  split.
  - rewrite Hp. apply NoDup_elements.
  - intros n. rewrite Hp, elem_of_elements. unfold rowNodes.
    rewrite elem_of_list_to_set, list_elem_of_omap. reflexivity.
Qed.

(** C1 (amended).  When the pods are listed, [startCollection] goes through
    the nodes of the rows, each once, in some order.  At a node the loop
    reaches: if the remote start call fails, the failure is logged for that
    node and the loop carries on with the nodes left; if endpoint
    resolution or the dial fails, [startCollection] returns that error at
    once and the nodes left are not attempted.  Nothing else makes it
    return an error, and when it returns nil every node was attempted. *)
Theorem startCollection_fanout env r st podsinfo :
  KubeGetPods__ env (tick st) (podLabels env) = Ok podsinfo ->
  Forall (fun a => is_Some (a !! 1%nat)) podsinfo ->
  let order := startOrder env st podsinfo in
  let st0 := startEntry st podsinfo in
  (NoDup order
   /\ forall n, n ∈ order <-> exists a, a ∈ podsinfo /\ a !! 1%nat = Some n)
  /\ (forall pre n post r1 st1 c st2,
        order = pre ++ n :: post ->
        startLoop env r pre st0 = (Ret (r1, None), st1) ->
        DialMonitor env (session r) n st1 = (Ret c, st2) ->
        match c with
        | Fail e =>
          startCollection env r st = (Ret (r1, Some e), st2)
          /\ attemptedNodes (trace st2) = attemptedNodes (trace st) ++ pre ++ [n]
        | Ok conn =>
          let err := rpcStartCollection env (tick st2) conn "5" (runid r) in
          startCollection env r st
          = startLoop env (nextCtx r1 n err) post (startState r conn n err st2)
        end)
  /\ (exists r' err st', startCollection env r st = (Ret (r', err), st'))
  /\ (forall r' st',
        startCollection env r st = (Ret (r', None), st') ->
        attemptedNodes (trace st') = attemptedNodes (trace st) ++ order)
  /\ (forall r' e st',
        startCollection env r st = (Ret (r', Some e), st') ->
        exists pre n post st1,
          order = pre ++ n :: post
          /\ startLoop env r pre st0 = (Ret (r', None), st1)
          /\ DialMonitor env (session r) n st1 = (Ret (Fail e), st')).
Proof.
  intros Hpods Hrows order st0.
  pose proof (startCollection_unfold _ r _ _ Hpods Hrows) as Hu.
  fold order st0 in Hu.
  split; [apply startOrder_nodes|]. split; [|split; [|split]].
  - intros pre n post r1 st1 c st2 Ho Hpre Hd.
    rewrite Hu, Ho, (startLoop_app _ _ _ _ _ _ _ Hpre).
    destruct (startLoop_returns env r pre st0) as (r1' & e1 & st1' & Hpre' & Hs & Hr & _).
    rewrite Hpre in Hpre'. injection Hpre' as <- _ _.
    rewrite <- Hs in Hd.
    rewrite (startLoop_step _ _ _ _ _ _ _ Hd).
    destruct c as [conn|e].
    + cbv zeta. unfold startState. rewrite Hr. reflexivity.
    + split; [reflexivity|].
      destruct (DialMonitor_trace env (session r1) n st1) as (c' & st2' & Hd' & _ & Ha).
      rewrite Hd in Hd'. injection Hd' as _ <-.
      pose proof (startLoop_attempted _ _ _ _ _ _ _ Hpre) as Hatt.
      cbv beta iota in Hatt.
      rewrite Ha, Hatt. unfold st0. rewrite startEntry_attempted.
      rewrite <- app_assoc. reflexivity.
  - rewrite Hu.
    destruct (startLoop_returns env r order st0) as (r' & err & st' & Hrun & _).
    eauto.
  - intros r' st' Hrun. rewrite Hu in Hrun.
    pose proof (startLoop_attempted _ _ _ _ _ _ _ Hrun) as Hatt.
    cbv beta iota in Hatt.
    rewrite Hatt. unfold st0. rewrite startEntry_attempted. reflexivity.
  - intros r' e st' Hrun. rewrite Hu in Hrun.
    destruct (startLoop_attempted _ _ _ _ _ _ _ Hrun)
      as (pre & n & post & st1 & Ho & Hpre & Hd & _).
    eauto 10.
Qed.

(** ** endCollection: retrieval *)

(** One turn of the loop. *)
Lemma endLoop_step env r node rest st c st1 :
  DialMonitor env (session r) node st = (Ret c, st1) ->
  endLoop env r (node :: rest) st =
  match c with
  | Fail e => (Ret (Some e), st1)
  | Ok conn =>
    let sr := rpcGetCollectionResults env (tick st1) conn (runid r) in
    match copyStreamToFile env (perfPath r node) (fst sr)
            (retrievalState r conn node (snd sr) st1) with
    | (Ret x, st2) => endLoop env r rest (emitState (transferLog r node x) st2)
    | (Panic m, st2) => (Panic m, st2)
    | (Exit n, st2) => (Exit n, st2)
    end
  end.
Proof.
  intros Hd. simpl. unfold bind at 1. rewrite Hd.
  destruct c as [conn|e]; [|reflexivity].
  unfold bind at 1. unfold emit at 1. unfold bind at 1. unfold ask at 1.
  cbn [tick emitState tickState].
  destruct (rpcGetCollectionResults env (tick st1) conn (runid r)) as [stream err].
  cbn [fst snd]. unfold bind at 1.
  assert (Hrs :
             (match err with
              | Some e => logPrintf (collectFailedMsg node e)
              | None => ret tt
              end) (tickState (emitState (EvGetCollectionResults conn (runid r)) st1))
             = (Ret tt, retrievalState r conn node err st1)).
  { destruct err;
      unfold logPrintf, emit, ret, retrievalState, stepState, tickState, emitState;
      cbn [tick files trace]; rewrite Nat.add_1_r, <- ?app_assoc; reflexivity. }
  rewrite Hrs. unfold bind at 1.
  destruct (copyStreamToFile env (perfPath r node) stream
              (retrievalState r conn node err st1)) as [[x|m|n] st2];
    [|reflexivity|reflexivity].
  unfold bind at 1. unfold transferLog.
  destruct x; unfold logPrintf, emit; reflexivity.
Qed.

Lemma attemptedNodes_app (a b : list event) :
  attemptedNodes (a ++ b) = attemptedNodes a ++ attemptedNodes b.
Proof. apply omap_app. Qed.

Lemma retrievalState_attempted r conn node err st :
  attemptedNodes (trace (retrievalState r conn node err st)) = attemptedNodes (trace st).
Proof.
  unfold attemptedNodes, retrievalState, stepState. cbn [trace].
  rewrite omap_app. destruct err; simpl; apply app_nil_r.
Qed.

(** Once the nodes of [pre] are gone through, the loop carries on with the
    rest. *)
Lemma endLoop_app env r pre post st st1 :
  endLoop env r pre st = (Ret None, st1) ->
  endLoop env r (pre ++ post) st = endLoop env r post st1.
Proof.
  revert st. induction pre as [|node pre IH]; intros st Hrun.
  - simpl in Hrun. injection Hrun as <-. reflexivity.
  - destruct (DialMonitor_trace env (session r) node st) as (c & st2 & Hd & _).
    rewrite <- app_comm_cons.
    rewrite (endLoop_step _ _ _ _ _ _ _ Hd).
    rewrite (endLoop_step _ _ _ _ _ _ _ Hd) in Hrun.
    destruct c as [conn|e]; [|discriminate Hrun].
    cbv zeta in *.
    destruct (copyStreamToFile env (perfPath r node)
                (fst (rpcGetCollectionResults env (tick st2) conn (runid r)))
                (retrievalState r conn node
                   (snd (rpcGetCollectionResults env (tick st2) conn (runid r))) st2))
      as [[x|m|n] st3]; [|discriminate Hrun|discriminate Hrun].
    apply IH, Hrun.
Qed.

(** The nodes [endLoop] contacts are the first [k] of its list, in order.
    It returns nil only after all of them; it returns an error only at a
    node whose [DialMonitor] failed, the error being that one; it never
    exits. *)
Lemma endLoop_attempted env r nodes st o st' :
  endLoop env r nodes st = (o, st') ->
  exists k,
    k <= length nodes
    /\ attemptedNodes (trace st') = attemptedNodes (trace st) ++ take k nodes
    /\ match o with
       | Ret None => k = length nodes
       | Ret (Some e) =>
         exists pre n post st1,
           nodes = pre ++ n :: post /\ k = S (length pre)
           /\ endLoop env r pre st = (Ret None, st1)
           /\ DialMonitor env (session r) n st1 = (Ret (Fail e), st')
       | Panic _ => 0 < k
       | Exit _ => False
       end.
Proof.
  revert st. induction nodes as [|node rest IH]; intros st Hrun.
  - simpl in Hrun. injection Hrun as <- <-. exists 0. simpl.
    rewrite app_nil_r. auto.
  - destruct (DialMonitor_trace env (session r) node st) as (c & st1 & Hd & _ & Ha).
    rewrite (endLoop_step _ _ _ _ _ _ _ Hd) in Hrun.
    destruct c as [conn|e].
    + cbv zeta in Hrun.
      destruct (copyStreamToFile env (perfPath r node)
                  (fst (rpcGetCollectionResults env (tick st1) conn (runid r)))
                  (retrievalState r conn node
                     (snd (rpcGetCollectionResults env (tick st1) conn (runid r))) st1))
        as [o2 st2] eqn:Hcopy.
      destruct (copyStreamToFile_frame _ _ _ _ _ _ Hcopy) as (Ht & _ & Ho2).
      assert (Ha2 : attemptedNodes (trace st2) = attemptedNodes (trace st) ++ [node]).
      { rewrite Ht, attemptedNodes_app, retrievalState_attempted, Ha.
        apply app_nil_r. }
      destruct o2 as [x|m|n]; [| |destruct Ho2].
      * destruct (IH _ Hrun) as (k & Hk & Hatt & Ho).
        exists (S k). split; [simpl; lia|]. split.
        { rewrite Hatt. unfold emitState. cbn [trace].
          rewrite attemptedNodes_app, Ha2. unfold transferLog. simpl.
          rewrite app_nil_r, <- app_assoc. reflexivity. }
        destruct o as [[e|]|m|n]; [|simpl; lia|lia|exact Ho].
        destruct Ho as (pre & n & post & st3 & -> & -> & Hpre & Hdn).
        exists (node :: pre), n, post, st3. repeat split; auto.
        rewrite (endLoop_step _ _ _ _ _ _ _ Hd). cbv zeta. rewrite Hcopy. exact Hpre.
      * injection Hrun as <- <-. exists 1. split; [simpl; lia|].
        split; [|lia]. rewrite Ha2. destruct rest; reflexivity.
    + injection Hrun as <- <-. exists 1. split; [simpl; lia|]. split.
      * rewrite Ha. destruct rest; reflexivity.
      * exists [], node, rest, st. repeat split; auto.
Qed.

(** C2 (amended).  The nodes [startCollection] adds to [collectNodes] are
    exactly the nodes its loop reached, connected to, and whose remote
    [StartCollection] call returned nil: a node whose start call failed, or
    that was not attempted, is not added, and no node is added twice.
    [endCollection] contacts nodes of [collectNodes] only, in that order
    from the first on: all of them when it returns nil; when it returns an
    error it has stopped at the node whose [DialMonitor] failed with that
    error, and the nodes after it are not contacted. *)
Theorem participating_set env r st podsinfo r' err st' :
  KubeGetPods__ env (tick st) (podLabels env) = Ok podsinfo ->
  Forall (fun a => is_Some (a !! 1%nat)) podsinfo ->
  startCollection env r st = (Ret (r', err), st') ->
  (exists added,
     collectNodes r' = collectNodes r ++ added
     /\ NoDup added
     /\ forall n, n ∈ added
                  <-> startedOk env r (startEntry st podsinfo)
                        (startOrder env st podsinfo) n)
  /\ (forall ste o ste',
        endCollection env r' ste = (o, ste') ->
        exists k,
          attemptedNodes (trace ste')
          = attemptedNodes (trace ste) ++ take k (collectNodes r')
          /\ match o with
             | Ret None => k = length (collectNodes r')
             | Ret (Some e) =>
               exists pre n post st1,
                 collectNodes r' = pre ++ n :: post /\ k = S (length pre)
                 /\ endLoop env r' pre ste = (Ret None, st1)
                 /\ DialMonitor env (session r') n st1 = (Ret (Fail e), ste')
             | Panic _ => 0 < k
             | Exit _ => False
             end).
Proof.
  intros Hpods Hrows Hrun.
  rewrite (startCollection_unfold _ _ _ _ Hpods Hrows) in Hrun.
  split.
  - destruct (startLoop_collect _ _ _ _ _ _ _ Hrun) as (added & Hc & Hsub & Hiff).
    exists added. split; [exact Hc|]. split; [|exact Hiff].
    eapply sublist_NoDup; [apply startOrder_nodes | exact Hsub].
  - intros ste o ste' Hend. unfold endCollection in Hend.
    destruct (endLoop_attempted _ _ _ _ _ _ Hend) as (k & _ & Hatt & Ho).
    exists k. auto.
Qed.

(** C3 (amended).  At a node of [collectNodes] the loop of [endCollection]
    reaches: if endpoint resolution or the dial fails, [endCollection]
    returns that error at once and the nodes left are not attempted; if the
    retrieval call hands out a stream, a failure it reports is logged, the
    transfer then runs, its failure is logged for the node, and the loop
    carries on with the nodes left.  When [endCollection] returns nil it
    has attempted every node of the set. *)
Theorem endCollection_fanout env r st pre n post st1 c st2 :
  collectNodes r = pre ++ n :: post ->
  endLoop env r pre st = (Ret None, st1) ->
  DialMonitor env (session r) n st1 = (Ret c, st2) ->
  match c with
  | Fail e =>
    endCollection env r st = (Ret (Some e), st2)
    /\ attemptedNodes (trace st2) = attemptedNodes (trace st) ++ pre ++ [n]
  | Ok conn =>
    forall s err,
      rpcGetCollectionResults env (tick st2) conn (runid r) = (Some s, err) ->
      exists x st3,
        copyStreamToFile env (perfPath r n) (Some s)
          (retrievalState r conn n err st2) = (Ret x, st3)
        /\ endCollection env r st
           = endLoop env r post (emitState (transferLog r n x) st3)
  end
  /\ (forall st',
        endCollection env r st = (Ret None, st') ->
        attemptedNodes (trace st') = attemptedNodes (trace st) ++ collectNodes r).
Proof.
  intros Hc Hpre Hd. split.
  - unfold endCollection.
    rewrite Hc, (endLoop_app _ _ _ _ _ _ Hpre), (endLoop_step _ _ _ _ _ _ _ Hd).
    destruct c as [conn|e].
    + intros s err Hrpc. cbv zeta. rewrite Hrpc. cbn [fst snd].
      destruct (copyStreamToFile_returns env (perfPath r n) s
                  (retrievalState r conn n err st2)) as (x & st3 & Hcopy).
      exists x, st3. rewrite Hcopy. auto.
    + split; [reflexivity|].
      destruct (DialMonitor_trace env (session r) n st1) as (c' & st2' & Hd' & _ & Ha).
      rewrite Hd in Hd'. injection Hd' as _ <-.
      destruct (endLoop_attempted _ _ _ _ _ _ Hpre) as (k & _ & Hatt & ->).
      rewrite Ha, Hatt, firstn_all, <- app_assoc. reflexivity.
  - intros st' Hrun. unfold endCollection in Hrun.
    destruct (endLoop_attempted _ _ _ _ _ _ Hrun) as (k & _ & Hatt & ->).
    rewrite Hatt, firstn_all. reflexivity.
Qed.

(** When the retrieval call hands out a nil stream and the artifact file
    can be opened, the transfer panics: [Recv] is called on nil. *)
Lemma endLoop_nil_stream_panics env r node rest st conn st1 err :
  DialMonitor env (session r) node st = (Ret (Ok conn), st1) ->
  rpcGetCollectionResults env (tick st1) conn (runid r) = (None, err) ->
  osOpenFile env (tick (retrievalState r conn node err st1)) (perfPath r node) = None ->
  fst (endLoop env r (node :: rest) st)
  = Panic "invalid memory address or nil pointer dereference".
Proof.
  intros Hd Hrpc Hopen.
  rewrite (endLoop_step _ _ _ _ _ _ _ Hd). cbv zeta. rewrite Hrpc. cbn [fst snd].
  unfold copyStreamToFile, bind. rewrite (openAppend_ok _ _ _ Hopen).
  reflexivity.
Qed.

(** ** The sysinfo side channel *)

Lemma logsOf_app (a b : list event) : logsOf (a ++ b) = logsOf a ++ logsOf b.
Proof. apply omap_app. Qed.

Lemma sleepsOf_app (a b : list event) : sleepsOf (a ++ b) = sleepsOf a ++ sleepsOf b.
Proof. apply omap_app. Qed.

(** Resolution and dial neither log nor sleep. *)
Lemma DialMonitor_quiet env s node st :
  exists c st',
    DialMonitor env s node st = (Ret c, st')
    /\ files st' = files st
    /\ logsOf (trace st') = logsOf (trace st)
    /\ sleepsOf (trace st') = sleepsOf (trace st).
Proof.
  assert (Hr : exists a st1,
             srvAddrForNode env s node st = (Ret a, st1)
             /\ files st1 = files st
             /\ logsOf (trace st1) = logsOf (trace st)
             /\ sleepsOf (trace st1) = sleepsOf (trace st)).
  { destruct (portForward s) eqn:Hpf.
    - rewrite (srvAddrForNode_tunnel _ _ _ _ Hpf).
      destruct (KubeGetPodForNode env (tick st) node monitorSelector);
        eexists _, _; (split; [reflexivity|]); cbn [files trace stepState];
        rewrite logsOf_app, sleepsOf_app; simpl; rewrite !app_nil_r; auto.
    - rewrite (srvAddrForNode_direct _ _ _ _ Hpf).
      eexists _, _; (split; [reflexivity|]); cbn [files trace stepState].
      rewrite logsOf_app, sleepsOf_app; simpl; rewrite !app_nil_r; auto. }
  destruct Hr as (a & st1 & Hr & Hf & Hl & Hs).
  rewrite (DialMonitor_unfold _ _ _ _ _ _ Hr).
  destruct a as [srvAddr|e]; eexists _, _; (split; [reflexivity|]); auto.
  cbn [files trace stepState]. rewrite logsOf_app, sleepsOf_app. simpl.
  rewrite !app_nil_r. auto.
Qed.

(** [GetSysInfoNode] always returns; it neither logs nor sleeps, removes no
    file, and when it returns nil the node's sysinfo file exists. *)
Lemma GetSysInfoNode_frame env s name ip st :
  exists x st',
    GetSysInfoNode env s name ip st = (Ret x, st')
    /\ logsOf (trace st') = logsOf (trace st)
    /\ sleepsOf (trace st') = sleepsOf (trace st)
    /\ (forall p, is_Some (files st !! p) -> is_Some (files st' !! p))
    /\ (x = None -> is_Some (files st' !! sysinfoPath s name)).
Proof.
  destruct (DialMonitor_quiet env s name st) as (c & st1 & Hd & Hf & Hl & Hs).
  unfold GetSysInfoNode, bind. rewrite Hd.
  destruct c as [conn|e].
  - unfold emit, ask. cbn [tick emitState tickState].
    destruct (rpcGetSysInfo env (tick st1) conn) as [stream|e].
    + match goal with |- context [copyStreamToFile ?a ?b ?c ?d] =>
        destruct (copyStreamToFile a b c d) as [o st2] eqn:Hcopy
      end.
      destruct (copyStreamToFile_frame _ _ _ _ _ _ Hcopy) as (Ht & Hfs & Ho).
      destruct o as [x|m|n]; [|discriminate Ho|destruct Ho].
      exists x, st2. split; [reflexivity|].
      rewrite Ht. cbn [trace files tickState emitState] in *.
      rewrite !logsOf_app, !sleepsOf_app. simpl. rewrite !app_nil_r.
      split; [exact Hl|]. split; [exact Hs|]. split; [|exact Ho].
      intros p Hp. apply Hfs. rewrite Hf. exact Hp.
    + eexists _, _. split; [reflexivity|]. cbn [trace files tickState emitState].
      rewrite logsOf_app, sleepsOf_app. simpl. rewrite !app_nil_r.
      split; [exact Hl|]. split; [exact Hs|]. split; [|discriminate].
      intros p Hp. rewrite Hf. exact Hp.
  - eexists _, _. split; [reflexivity|].
    split; [exact Hl|]. split; [exact Hs|]. split; [|discriminate].
    intros p Hp. rewrite Hf. exact Hp.
Qed.

(** One turn of the retry loop. *)
Lemma sysInfoRetry_step env s name ip errstr retries st x st1 :
  GetSysInfoNode env s name ip (emitState (EvLog (attemptMsg name ip retries)) st)
  = (Ret x, st1) ->
  sysInfoRetry env s name ip errstr retries st =
  match x with
  | None => (Ret errstr, st1)
  | Some e =>
    match retries with
    | O => (Ret (errstr +:+ nl +:+ failureMsg env name e), st1)
    | S retries' =>
      sysInfoRetry env s name ip errstr retries' (emitState (EvSleep 4) st1)
    end
  end.
Proof.
  intros Hg. destruct retries as [|retries'];
    simpl; unfold bind at 1; unfold logPrintf, emit at 1;
    unfold bind at 1; rewrite Hg; destruct x; reflexivity.
Qed.

(** The retry loop for one node.  It makes [k + 1] calls, announced by log
    lines that count the retries left down, with [k] pauses of 4 seconds
    between them; [x] is what the last call returned.  Unless that is nil,
    all retries are used up and one entry is added to [errstr]. *)
Lemma sysInfoRetry_spec env s name ip errstr retries st :
  exists k x errstr' stl st',
    k <= retries
    /\ sysInfoRetry env s name ip errstr retries st = (Ret errstr', st')
    /\ logsOf (trace st')
       = logsOf (trace st) ++ map (attemptMsg name ip) (countdown retries k)
    /\ sleepsOf (trace st') = sleepsOf (trace st) ++ repeat 4 k
    /\ GetSysInfoNode env s name ip stl = (Ret x, st')
    /\ match x with
       | None => errstr' = errstr
       | Some e => k = retries /\ errstr' = errstr +:+ nl +:+ failureMsg env name e
       end
    /\ (forall p, is_Some (files st !! p) -> is_Some (files st' !! p))
    /\ (x = None -> is_Some (files st' !! sysinfoPath s name)).
Proof.
  revert st. induction retries as [|retries' IH]; intros st;
    [destruct (GetSysInfoNode_frame env s name ip
                 (emitState (EvLog (attemptMsg name ip 0)) st))
       as (x & st1 & Hg & Hl & Hs & Hf & Hx)
    |destruct (GetSysInfoNode_frame env s name ip
                 (emitState (EvLog (attemptMsg name ip (S retries'))) st))
       as (x & st1 & Hg & Hl & Hs & Hf & Hx)];
    rewrite (sysInfoRetry_step _ _ _ _ _ _ _ _ _ Hg);
    cbn [trace files emitState] in Hl, Hs, Hf;
    rewrite logsOf_app in Hl; rewrite sleepsOf_app in Hs;
    simpl in Hl, Hs; rewrite app_nil_r in Hs.
  - exists 0, x, (match x with
                  | None => errstr
                  | Some e => errstr +:+ nl +:+ failureMsg env name e
                  end), (emitState (EvLog (attemptMsg name ip 0)) st), st1.
    split; [lia|]. split; [destruct x; reflexivity|].
    split; [exact Hl|]. split; [simpl; rewrite app_nil_r; exact Hs|].
    split; [exact Hg|]. split; [destruct x; auto|]. auto.
  - destruct x as [e|].
    + destruct (IH (emitState (EvSleep 4) st1))
        as (k & x & errstr' & stl & st' & Hk & Hrun & Hl' & Hs' & Hg' & Hx' & Hf' & Hok).
      exists (S k), x, errstr', stl, st'.
      split; [lia|]. split; [exact Hrun|].
      cbn [trace files emitState] in Hl', Hs', Hf'.
      rewrite logsOf_app in Hl'. rewrite sleepsOf_app in Hs'. simpl in Hl', Hs'.
      rewrite app_nil_r in Hl'.
      split; [rewrite Hl', Hl, <- app_assoc; reflexivity|].
      split; [rewrite Hs', Hs, <- app_assoc; reflexivity|].
      split; [exact Hg'|].
      split; [destruct x; [destruct Hx' as [-> ->]|]; auto|].
      split; [|exact Hok]. intros p Hp. apply Hf', Hf, Hp.
    + exists 0, None, errstr,
        (emitState (EvLog (attemptMsg name ip (S retries'))) st), st1.
      split; [lia|]. split; [reflexivity|].
      split; [exact Hl|]. split; [simpl; rewrite app_nil_r; exact Hs|].
      split; [exact Hg|]. auto.
Qed.

(** The retry loop for one node, call by call.  The first [k] calls fail
    and are each followed by a pause; the call after them returns [x] and
    ends the loop: at once when [x] is nil, and otherwise only when no
    retry is left, with one entry added to [errstr]. *)
Lemma sysInfoRetry_chain env s name ip errstr retries st :
  exists k x errstr' stb st',
    k <= retries
    /\ failedCalls env s name ip retries st k stb
    /\ GetSysInfoNode env s name ip
         (emitState (EvLog (attemptMsg name ip (retries - k))) stb) = (Ret x, st')
    /\ sysInfoRetry env s name ip errstr retries st = (Ret errstr', st')
    /\ logsOf (trace st')
       = logsOf (trace st) ++ map (attemptMsg name ip) (countdown retries k)
    /\ sleepsOf (trace st') = sleepsOf (trace st) ++ repeat 4 k
    /\ match x with
       | None => errstr' = errstr
       | Some e => k = retries /\ errstr' = errstr +:+ nl +:+ failureMsg env name e
       end.
Proof.
  revert st. induction retries as [|retries' IH]; intros st;
    [destruct (GetSysInfoNode_frame env s name ip
                 (emitState (EvLog (attemptMsg name ip 0)) st))
       as (x & st1 & Hg & Hl & Hs & _)
    |destruct (GetSysInfoNode_frame env s name ip
                 (emitState (EvLog (attemptMsg name ip (S retries'))) st))
       as (x & st1 & Hg & Hl & Hs & _)];
    rewrite (sysInfoRetry_step _ _ _ _ _ _ _ _ _ Hg);
    cbn [trace files emitState] in Hl, Hs;
    rewrite logsOf_app in Hl; rewrite sleepsOf_app in Hs;
    simpl in Hl, Hs; rewrite app_nil_r in Hs.
  - exists 0, x, (match x with
                  | None => errstr
                  | Some e => errstr +:+ nl +:+ failureMsg env name e
                  end), st, st1.
    split; [lia|]. split; [constructor|]. split; [exact Hg|].
    split; [destruct x; reflexivity|].
    split; [exact Hl|]. split; [simpl; rewrite app_nil_r; exact Hs|].
    destruct x; auto.
  - destruct x as [e|].
    + destruct (IH (emitState (EvSleep 4) st1))
        as (k & x & errstr' & stb & st' & Hk & Hch & Hg' & Hrun & Hl' & Hs' & Hx').
      exists (S k), x, errstr', stb, st'.
      split; [lia|].
      split; [exact (failedCalls_more _ _ _ _ _ _ _ _ _ _ Hg Hch)|].
      split; [exact Hg'|]. split; [exact Hrun|].
      cbn [trace files emitState] in Hl', Hs'.
      rewrite logsOf_app in Hl'. rewrite sleepsOf_app in Hs'. simpl in Hl', Hs'.
      rewrite app_nil_r in Hl'.
      split; [rewrite Hl', Hl, <- app_assoc; reflexivity|].
      split; [rewrite Hs', Hs, <- app_assoc; reflexivity|].
      destruct x; [destruct Hx' as [-> ->]|]; auto.
    + exists 0, None, errstr, st, st1.
      split; [lia|]. split; [constructor|]. split; [exact Hg|].
      split; [reflexivity|].
      split; [exact Hl|]. split; [simpl; rewrite app_nil_r; exact Hs|].
      reflexivity.
Qed.

(** A node whose first call succeeds is called once. *)
Lemma failedCalls_first_ok env s name ip retries st k stb st1 :
  GetSysInfoNode env s name ip (emitState (EvLog (attemptMsg name ip retries)) st)
  = (Ret None, st1) ->
  failedCalls env s name ip retries st k stb ->
  k = 0 /\ stb = st.
Proof.
  intros Hg Hch. destruct Hch as [|retries st e st2 k stb Hfail _]; [auto|].
  rewrite Hfail in Hg. discriminate Hg.
Qed.

Lemma wellFormed_fields line :
  wellFormed line -> exists name ip, Fields line = [name; ip].
Proof.
  unfold wellFormed. intros H.
  destruct (Fields line) as [|a [|b [|c l]]]; try discriminate H. eauto.
Qed.

Lemma sysInfoRow_wf env s errstr line name ip :
  Fields line = [name; ip] ->
  sysInfoRow env s errstr line = sysInfoRetry env s name ip errstr retriesOrig.
Proof. intros H. unfold sysInfoRow. rewrite H. reflexivity. Qed.

Lemma sysInfoRow_bad env s errstr line st :
  ~ wellFormed line ->
  sysInfoRow env s errstr line st = (Exit 1, emitState (EvLog (fatalMsg line)) st).
Proof.
  unfold wellFormed, sysInfoRow. intros H.
  destruct (Fields line) as [|a [|b [|c l]]]; try reflexivity.
  exfalso. apply H. reflexivity.
Qed.

(** Rows that are well formed are all gone through: the loop returns. *)
Lemma sysInfoRows_wf env s errstr lines st :
  Forall wellFormed lines ->
  exists errstr' st',
    sysInfoRows env s errstr lines st = (Ret errstr', st')
    /\ (forall p, is_Some (files st !! p) -> is_Some (files st' !! p)).
Proof.
  intros Hwf. revert errstr st.
  induction Hwf as [|line rest Hline _ IH]; intros errstr st.
  - eexists _, _. split; [reflexivity|]. auto.
  - destruct (wellFormed_fields _ Hline) as (name & ip & Hfields).
    destruct (sysInfoRetry_spec env s name ip errstr retriesOrig st)
      as (k & x & e1 & stl & st1 & _ & Hrun & _ & _ & _ & _ & Hf & _).
    destruct (IH e1 st1) as (e2 & st2 & Hrest & Hf2).
    exists e2, st2. simpl. unfold bind.
    rewrite (sysInfoRow_wf _ _ _ _ _ _ Hfields), Hrun. split; [exact Hrest|].
    intros p Hp. apply Hf2, Hf, Hp.
Qed.

Lemma sysInfoRows_app env s errstr pre post st e1 st1 :
  sysInfoRows env s errstr pre st = (Ret e1, st1) ->
  sysInfoRows env s errstr (pre ++ post) st = sysInfoRows env s e1 post st1.
Proof.
  revert errstr st. induction pre as [|line pre IH]; intros errstr st Hrun.
  - simpl in Hrun. injection Hrun as <- <-. reflexivity.
  - simpl in *. unfold bind in *.
    destruct (sysInfoRow env s errstr line st) as [[e2|m|n] st2];
      try discriminate Hrun.
    apply IH, Hrun.
Qed.

Lemma first_malformed lines :
  (exists line, line ∈ lines /\ ~ wellFormed line) ->
  exists pre bad post,
    lines = pre ++ bad :: post /\ Forall wellFormed pre /\ ~ wellFormed bad.
Proof.
  induction lines as [|l lines IH]; intros (line & Hin & Hbad).
  - apply elem_of_nil in Hin. destruct Hin.
  - destruct (decide (length (Fields l) = 2)) as [Hl|Hl].
    + apply elem_of_cons in Hin. destruct Hin as [->|Hin]; [contradiction|].
      destruct IH as (pre & bad & post & -> & Hpre & Hb); [eauto|].
      exists (l :: pre), bad, post. repeat split; auto.
    + exists [], l, lines. repeat split; auto.
Qed.


Lemma sysInfoResult_entry x :
  sysInfoResult (EmptyString +:+ nl +:+ x)
  = Some (ErrStr ("GetSysInfoNodes() failed:" +:+ nl +:+ nl +:+ x)).
Proof. reflexivity. Qed.

Lemma GetSysInfoNodes_unfold env s st lines :
  KubeGetNodesAndIps env (tick st) = Ok lines ->
  GetSysInfoNodes env s st =
  match sysInfoRows env s EmptyString lines (tickState st) with
  | (Ret errstr, st') => (Ret (sysInfoResult errstr), st')
  | (Panic m, st') => (Panic m, st')
  | (Exit n, st') => (Exit n, st')
  end.
Proof.
  intros H. unfold GetSysInfoNodes, bind, ask. rewrite H.
  destruct (sysInfoRows env s EmptyString lines (tickState st)) as [[e|m|n] st'];
    reflexivity.
Qed.

(** Rows whose calls all succeed leave the error text as it was. *)
Lemma sysInfoRows_all_ok env s errstr lines st :
  (forall line, line ∈ lines ->
     exists name ip,
       Fields line = [name; ip]
       /\ forall st0, fst (GetSysInfoNode env s name ip st0) = Ret None) ->
  exists st', sysInfoRows env s errstr lines st = (Ret errstr, st').
Proof.
  revert st. induction lines as [|line rest IH]; intros st Hok.
  - eexists. reflexivity.
  - destruct (Hok line) as (name & ip & Hfields & Hcall); [apply elem_of_cons; auto|].
    destruct (sysInfoRetry_spec env s name ip errstr retriesOrig st)
      as (k & x & e1 & stl & st1 & _ & Hrun & _ & _ & Hg & Hx & _).
    specialize (Hcall stl). rewrite Hg in Hcall. injection Hcall as ->. subst e1.
    destruct (IH st1) as (st' & Hrest).
    { intros l Hl. apply Hok, elem_of_cons. auto. }
    exists st'. simpl. unfold bind.
    rewrite (sysInfoRow_wf _ _ _ _ _ _ Hfields), Hrun. exact Hrest.
Qed.

(** C10.  When a row of the node listing does not split into exactly two
    fields, [GetSysInfoNodes] ends the process ([log.Fatal]: exit status 1)
    on reaching the first such row: the rows before it have been gone
    through, nothing is recorded for the row, and the rows after it are
    never looked at. *)
Theorem malformed_row_is_fatal env s st lines :
  KubeGetNodesAndIps env (tick st) = Ok lines ->
  (exists line, line ∈ lines /\ length (Fields line) <> 2) ->
  exists pre bad post errstr st1,
    lines = pre ++ bad :: post
    /\ Forall (fun l => length (Fields l) = 2) pre
    /\ length (Fields bad) <> 2
    /\ sysInfoRows env s EmptyString pre (tickState st) = (Ret errstr, st1)
    /\ GetSysInfoNodes env s st
       = (Exit 1, emitState (EvLog ("filed to parse  line %s" +:+ bad)) st1).
Proof.
  intros Hlines Hbad.
  destruct (first_malformed lines Hbad) as (pre & bad & post & -> & Hpre & Hb).
  destruct (sysInfoRows_wf env s EmptyString pre (tickState st) Hpre)
    as (errstr & st1 & Hrun & _).
  exists pre, bad, post, errstr, st1.
  split; [reflexivity|]. split; [exact Hpre|]. split; [exact Hb|].
  split; [exact Hrun|].
  rewrite (GetSysInfoNodes_unfold _ _ _ _ Hlines).
  rewrite (sysInfoRows_app _ _ _ _ _ _ _ _ Hrun). simpl. unfold bind.
  rewrite (sysInfoRow_bad _ _ _ _ _ Hb). reflexivity.
Qed.

(** ** The theorems at work *)


Lemma copyStreamToFile_accumulates_witness :
  let st1 := snd (copyStreamToFile calmWorld "/s/old.sysinfo"
                    (Some [Ok [Byte.x01; Byte.x02]; Ok [Byte.x03]]) exState) in
  let st2 := snd (copyStreamToFile calmWorld "/s/old.sysinfo"
                    (Some [Ok [Byte.x04]]) st1) in
  copyStreamToFile calmWorld "/s/old.sysinfo"
    (Some [Ok [Byte.x01; Byte.x02]; Ok [Byte.x03]]) exState = (Ret None, st1)
  /\ copyStreamToFile calmWorld "/s/old.sysinfo" (Some [Ok [Byte.x04]]) st1
     = (Ret None, st2)
  /\ files st2 !! "/s/old.sysinfo"
     = Some [Byte.x00; Byte.x01; Byte.x02; Byte.x03; Byte.x04]
  /\ length (default [] (files st2 !! "/s/old.sysinfo")) = 1 + (2 + 1 + 1).
Proof.
  intros st1 st2.
  assert (H1 : copyStreamToFile calmWorld "/s/old.sysinfo"
                 (Some [Ok [Byte.x01; Byte.x02]; Ok [Byte.x03]]) exState
               = (Ret None, st1)) by (vm_compute; reflexivity).
  assert (H2 : copyStreamToFile calmWorld "/s/old.sysinfo" (Some [Ok [Byte.x04]]) st1
               = (Ret None, st2)) by (vm_compute; reflexivity).
  destruct (copyStreamToFile_accumulates calmWorld "/s/old.sysinfo" _ _ _ _ _ H1 H2)
    as (Hfile & Hlen).
  split; [exact H1|]. split; [exact H2|]. split; [exact Hfile|exact Hlen].
Defined.

Lemma resolution_spec_witness :
  fst (srvAddrForNode calmWorld directSession "a" exState) = Ret (Ok "10.0.0.a:8451")
  /\ fst (srvAddrForNode lostWorld directSession "b" exState)
     = Ret (Fail (ErrStr "node not found"))
  /\ fst (srvAddrForNode lostWorld tunnelSession "b" exState)
     = Ret (Fail (ErrStr "no pod found"))
  /\ fst (srvAddrForNode calmWorld tunnelSession "z" exState)
     = Ret (Fail (ErrStr "port-forward failed"))
  /\ fst (srvAddrForNode calmWorld tunnelSession "a" exState)
     = Ret (Ok "localhost:40123")
  /\ fst (DialMonitor lostWorld tunnelSession "b" exState)
     = Ret (Fail (ErrWrap "failed to obtain monitor address of node b: no pod found"
                    (ErrStr "no pod found")))
  /\ dialled (trace (snd (DialMonitor lostWorld tunnelSession "b" exState))) = [].
Proof.
  split; [|split; [|split; [|split; [|split]]]].
  - destruct (resolution_spec calmWorld directSession "a" exState) as (Hd & _ & _).
    destruct (Hd eq_refl) as (Hok & _). exact (Hok "10.0.0.a" eq_refl).
  - destruct (resolution_spec lostWorld directSession "b" exState) as (Hd & _ & _).
    destruct (Hd eq_refl) as (_ & Hfail). exact (Hfail (ErrStr "node not found") eq_refl).
  - destruct (resolution_spec lostWorld tunnelSession "b" exState) as (_ & Ht & _).
    destruct (Ht eq_refl) as (Hpod & _). exact (Hpod (ErrStr "no pod found") eq_refl).
  - destruct (resolution_spec calmWorld tunnelSession "z" exState) as (_ & Ht & _).
    destruct (Ht eq_refl) as (_ & Hfwd & _).
    exact (Hfwd "knb-monitor-z" (ErrStr "port-forward failed") eq_refl eq_refl).
  - destruct (resolution_spec calmWorld tunnelSession "a" exState) as (_ & Ht & _).
    destruct (Ht eq_refl) as (_ & _ & Hok).
    exact (Hok "knb-monitor-a" "40123" eq_refl eq_refl).
  - destruct (resolution_spec lostWorld tunnelSession "b" exState) as (_ & _ & Hdial).
    destruct (Hdial (ErrStr "no pod found")
                (snd (srvAddrForNode lostWorld tunnelSession "b" exState)))
      as (Hd & _ & Hnone); [vm_compute; reflexivity|].
    rewrite Hd. split; [reflexivity|]. exact Hnone.
Defined.

(** C1, as stated, fails.  No monitor can be dialled; the pods run on nodes
    a and b.  The dial to node a fails, [startCollection] returns that
    error, and node b is never attempted. *)
Lemma startCollection_fanout_counterexample :
  fst (startCollection downWorld exRun exState)
  = Ret (exRun, Some (ErrWrap "failed to connect to monitor 10.0.0.a:8451: connection refused"
                        (ErrStr "connection refused")))
  /\ "b" ∈ rowNodes exPods
  /\ "b" ∉ attemptedNodes (trace (snd (startCollection downWorld exRun exState))).
Proof.
  split; [vm_compute; reflexivity|]. split; compute_done.
Qed.

Lemma startCollection_fanout_witness :
  let st1 := snd (startLoop busyWorld exRun ["a"] (startEntry exState exPods)) in
  let st2 := snd (DialMonitor busyWorld directSession "b" st1) in
  KubeGetPods__ busyWorld (tick exState) (podLabels busyWorld) = Ok exPods
  /\ Forall (fun a => is_Some (a !! 1%nat)) exPods
  /\ startOrder busyWorld exState exPods = ["a"] ++ "b" :: []
  /\ startCollection busyWorld exRun exState
     = startLoop busyWorld (appendNode exRun "a") []
         (startState exRun "10.0.0.b:8451" "b" (Some (ErrStr "busy")) st2)
  /\ attemptedNodes (trace (snd (startCollection busyWorld exRun exState)))
     = ["a"; "b"].
Proof.
  intros st1 st2.
  assert (Hpods : KubeGetPods__ busyWorld (tick exState) (podLabels busyWorld) = Ok exPods)
    by reflexivity.
  assert (Hrows : Forall (fun a => is_Some (a !! 1%nat)) exPods)
    by (repeat constructor; eexists; reflexivity).
  assert (Horder : startOrder busyWorld exState exPods = ["a"] ++ "b" :: [])
    by (vm_compute; reflexivity).
  destruct (startCollection_fanout busyWorld exRun exState exPods Hpods Hrows)
    as (_ & Hnode & _ & Hall & _).
  split; [exact Hpods|]. split; [exact Hrows|]. split; [exact Horder|]. split.
  - apply (Hnode ["a"] "b" [] (appendNode exRun "a") st1 (Ok "10.0.0.b:8451") st2 Horder);
      vm_compute; reflexivity.
  - apply (Hall (appendNode exRun "a")). vm_compute. reflexivity.
Defined.

(** C2, as stated, fails.  The monitors of nodes a and b acknowledge the
    start call, so both are in the participating set; at retrieval time
    they can no longer be dialled: [endCollection] contacts node a, returns
    the error, and never contacts node b. *)
Lemma participating_set_counterexample :
  let st1 := snd (startCollection lateDownWorld exRun exState) in
  fst (startCollection lateDownWorld exRun exState) = Ret (exRunAB, None)
  /\ fst (endCollection lateDownWorld exRunAB st1)
     = Ret (Some (ErrWrap "failed to connect to monitor 10.0.0.a:8451: connection refused"
                    (ErrStr "connection refused")))
  /\ attemptedNodes (trace (snd (endCollection lateDownWorld exRunAB st1)))
     = attemptedNodes (trace st1) ++ ["a"]
  /\ "b" ∈ collectNodes exRunAB.
Proof.
  intros st1. split; [vm_compute; reflexivity|].
  split; [vm_compute; reflexivity|]. split; [vm_compute; reflexivity|compute_done].
Qed.

Lemma participating_set_witness :
  let r' := appendNode exRun "a" in
  let st' := snd (startCollection busyWorld exRun exState) in
  KubeGetPods__ busyWorld (tick exState) (podLabels busyWorld) = Ok exPods
  /\ Forall (fun a => is_Some (a !! 1%nat)) exPods
  /\ startCollection busyWorld exRun exState = (Ret (r', None), st')
  /\ (exists added,
        collectNodes r' = collectNodes exRun ++ added
        /\ NoDup added
        /\ forall n, n ∈ added
                     <-> startedOk busyWorld exRun (startEntry exState exPods)
                           (startOrder busyWorld exState exPods) n).
Proof.
  intros r' st'.
  assert (Hpods : KubeGetPods__ busyWorld (tick exState) (podLabels busyWorld) = Ok exPods)
    by reflexivity.
  assert (Hrows : Forall (fun a => is_Some (a !! 1%nat)) exPods)
    by (repeat constructor; eexists; reflexivity).
  assert (Hrun : startCollection busyWorld exRun exState = (Ret (r', None), st'))
    by (vm_compute; reflexivity).
  split; [exact Hpods|]. split; [exact Hrows|]. split; [exact Hrun|].
  exact (proj1 (participating_set busyWorld exRun exState exPods r' None st'
                  Hpods Hrows Hrun)).
Defined.

(** C3, as stated, fails.  Nodes a and b take part, and no monitor can be
    dialled: [endCollection] returns the error of node a at once and node b
    is never attempted. *)
Lemma endCollection_fanout_counterexample :
  fst (endCollection downWorld exRunAB exState)
  = Ret (Some (ErrWrap "failed to connect to monitor 10.0.0.a:8451: connection refused"
                 (ErrStr "connection refused")))
  /\ "b" ∈ collectNodes exRunAB
  /\ "b" ∉ attemptedNodes (trace (snd (endCollection downWorld exRunAB exState))).
Proof.
  split; [vm_compute; reflexivity|]. split; compute_done.
Qed.

Lemma endCollection_fanout_witness :
  let st1 := snd (endLoop resetWorld exRunAB ["a"] exState) in
  let st2 := snd (DialMonitor resetWorld directSession "b" st1) in
  collectNodes exRunAB = ["a"] ++ "b" :: []
  /\ endLoop resetWorld exRunAB ["a"] exState = (Ret None, st1)
  /\ DialMonitor resetWorld directSession "b" st1 = (Ret (Ok "10.0.0.b:8451"), st2)
  /\ (exists x st3,
        copyStreamToFile resetWorld (perfPath exRunAB "b")
          (Some [Ok [Byte.x01]; Fail (ErrStr "stream reset")])
          (retrievalState exRunAB "10.0.0.b:8451" "b" None st2) = (Ret x, st3)
        /\ endCollection resetWorld exRunAB exState
           = endLoop resetWorld exRunAB [] (emitState (transferLog exRunAB "b" x) st3))
  /\ attemptedNodes (trace (snd (endCollection resetWorld exRunAB exState)))
     = ["a"; "b"].
Proof.
  intros st1 st2.
  assert (Hc : collectNodes exRunAB = ["a"] ++ "b" :: []) by reflexivity.
  assert (Hpre : endLoop resetWorld exRunAB ["a"] exState = (Ret None, st1))
    by (vm_compute; reflexivity).
  assert (Hd : DialMonitor resetWorld directSession "b" st1
               = (Ret (Ok "10.0.0.b:8451"), st2))
    by (vm_compute; reflexivity).
  destruct (endCollection_fanout resetWorld exRunAB exState ["a"] "b" [] st1
              (Ok "10.0.0.b:8451") st2 Hc Hpre Hd) as (Hnode & Hall).
  split; [exact Hc|]. split; [exact Hpre|]. split; [exact Hd|]. split.
  - apply (Hnode [Ok [Byte.x01]; Fail (ErrStr "stream reset")] None). reflexivity.
  - apply Hall. vm_compute. reflexivity.
Defined.

(** C9.  The code at the failing input.  Nodes a and b take part, every
    dial succeeds and the retrieval call on node a fails, handing out no
    stream.  The failure is logged, the artifact file is opened, and
    [endCollection] panics in the transfer instead of returning nil; node b
    is never attempted. *)
Theorem endCollection_nil_stream :
  fst (DialMonitor nilWorld directSession "a" exState) = Ret (Ok "10.0.0.a:8451")
  /\ rpcGetCollectionResults nilWorld 2 "10.0.0.a:8451" "r1"
     = (None, Some (ErrStr "unavailable"))
  /\ fst (endCollection nilWorld exRunAB exState)
     = Panic "invalid memory address or nil pointer dereference"
  /\ logsOf (trace (snd (endCollection nilWorld exRunAB exState)))
     = [collectFailedMsg "a" (ErrStr "unavailable")]
  /\ attemptedNodes (trace (snd (endCollection nilWorld exRunAB exState))) = ["a"].
Proof.
  split; [reflexivity|]. split; [reflexivity|]. split.
  - apply (endLoop_nil_stream_panics nilWorld exRunAB "a" ["b"] exState
             "10.0.0.a:8451"
             (snd (DialMonitor nilWorld directSession "a" exState))
             (Some (ErrStr "unavailable"))); vm_compute; reflexivity.
  - split; vm_compute; reflexivity.
Qed.


Lemma malformed_row_is_fatal_witness :
  KubeGetNodesAndIps oddWorld (tick exState) = Ok ["a 1"; "b 2 x"; "c 3"]
  /\ (exists line, line ∈ ["a 1"; "b 2 x"; "c 3"] /\ length (Fields line) <> 2)
  /\ fst (GetSysInfoNodes oddWorld directSession exState) = Exit 1
  /\ logsOf (trace (snd (GetSysInfoNodes oddWorld directSession exState)))
     = [attemptMsg "a" "1" 10; "filed to parse  line %sb 2 x"].
Proof.
  assert (Hlines : KubeGetNodesAndIps oddWorld (tick exState)
                   = Ok ["a 1"; "b 2 x"; "c 3"]) by reflexivity.
  assert (Hbad : exists line,
             line ∈ ["a 1"; "b 2 x"; "c 3"] /\ length (Fields line) <> 2).
  { exists "b 2 x". split; [compute_done|]. vm_compute. discriminate. }
  split; [exact Hlines|]. split; [exact Hbad|].
  destruct (malformed_row_is_fatal oddWorld directSession exState _ Hlines Hbad)
    as (pre & bad & post & errstr & st1 & _ & _ & _ & _ & Hrun).
  split; [rewrite Hrun; reflexivity|].
  vm_compute. reflexivity.
Defined.


(** ** More on the stream transfer *)

(** The loop only adds to the end of its file and leaves the others alone,
    however it ends. *)
Lemma copyLoop_append_only env fname s st old o st' :
  files st !! fname = Some old ->
  copyLoop env fname s st = (o, st') ->
  (exists w, files st' !! fname = Some (old ++ w))
  /\ forall p, p <> fname -> files st' !! p = files st !! p.
Proof.
  revert st old. induction s as [|r s IH]; intros st old Hold Hrun.
  - simpl in Hrun. injection Hrun as <- <-. split; [|auto].
    exists []. rewrite app_nil_r. exact Hold.
  - destruct r as [d|e]; simpl in Hrun.
    + unfold bind, writeAppend, ask, bind in Hrun. simpl in Hrun.
      destruct (fileWrite env (tick st) fname d) as [[n e]|] eqn:Hw.
      * injection Hrun as <- <-. simpl. rewrite Hold. simpl. split.
        -- exists (take n d). apply lookup_insert_eq.
        -- intros p Hp. apply lookup_insert_ne. auto.
      * assert (Hnew : files (appendBytes fname d (tickState st)) !! fname
                       = Some (old ++ d)).
        { simpl. rewrite Hold. apply lookup_insert_eq. }
        destruct (IH _ (old ++ d) Hnew Hrun) as ((w & Hw') & Hother).
        split.
        -- exists (d ++ w). rewrite Hw', <- app_assoc. reflexivity.
        -- intros p Hp. rewrite (Hother p Hp). simpl.
           apply lookup_insert_ne. auto.
    + destruct (isEOF e); injection Hrun as <- <-; (split; [|auto]);
        exists []; rewrite app_nil_r; exact Hold.
Qed.

(** Whatever a call returns, and also when it panics: the files other than
    [fname] are as before, and [fname] holds what it held, followed by what
    the call wrote. *)
Lemma copyStreamToFile_grows env fname stream st o st' :
  copyStreamToFile env fname stream st = (o, st') ->
  (forall p, p <> fname -> files st' !! p = files st !! p)
  /\ (exists w, default [] (files st' !! fname)
                = default [] (files st !! fname) ++ w)
  /\ (is_Some (files st !! fname) -> is_Some (files st' !! fname)).
Proof.
  intros Hrun. unfold copyStreamToFile, bind in Hrun.
  destruct (osOpenFile env (tick st) fname) as [e|] eqn:Ho.
  - rewrite (openAppend_fail _ _ _ _ Ho) in Hrun. injection Hrun as <- <-. simpl.
    split; [auto|]. split; [|auto]. exists []. symmetry. apply app_nil_r.
  - rewrite (openAppend_ok _ _ _ Ho) in Hrun.
    destruct stream as [s|].
    + match type of Hrun with copyLoop _ _ _ ?st1 = _ =>
        assert (Hnew : files st1 !! fname = Some (default [] (files st !! fname)))
          by (simpl; apply lookup_insert_eq)
      end.
      destruct (copyLoop_append_only _ _ _ _ _ _ _ Hnew Hrun) as ((w & Hw) & Hother).
      split; [|split].
      * intros p Hp. rewrite (Hother p Hp). simpl. apply lookup_insert_ne. auto.
      * exists w. rewrite Hw. reflexivity.
      * intros _. rewrite Hw. eauto.
    + injection Hrun as <- <-. simpl. split; [|split].
      * intros p Hp. apply lookup_insert_ne. auto.
      * exists []. rewrite lookup_insert_eq, app_nil_r. reflexivity.
      * intros _. rewrite lookup_insert_eq. eauto.
Qed.

(** X1.  [copyStreamToFile] only ever adds to the end of its file: however
    the call ends (nil, an error, a panic on a nil stream), every other file
    is as before, the file still starts with the content it had, and a file
    that existed still exists. *)
Theorem copyStreamToFile_append_only env fname stream st :
  let st' := snd (copyStreamToFile env fname stream st) in
  (forall p, p <> fname -> files st' !! p = files st !! p)
  /\ (exists w, default [] (files st' !! fname)
                = default [] (files st !! fname) ++ w)
  /\ (is_Some (files st !! fname) -> is_Some (files st' !! fname)).
Proof.
  intros st'. subst st'.
  destruct (copyStreamToFile env fname stream st) as [o st'] eqn:Hrun.
  exact (copyStreamToFile_grows _ _ _ _ _ _ Hrun).
Qed.

(** X2.  A transfer that is run again after a failed one does not start the
    file over: what the failed call wrote stays in the file, and the chunks
    of the successful call follow it. *)
Theorem copyStreamToFile_retry env fname stream1 stream2 st o1 st1 st2 :
  copyStreamToFile env fname stream1 st = (o1, st1) ->
  copyStreamToFile env fname stream2 st1 = (Ret None, st2) ->
  exists w,
    default [] (files st1 !! fname) = default [] (files st !! fname) ++ w
    /\ files st2 !! fname
       = Some (default [] (files st !! fname) ++ w ++ concat (received stream2)).
Proof.
  intros H1 H2.
  destruct (copyStreamToFile_grows _ _ _ _ _ _ H1) as (_ & (w & Hw) & _).
  exists w. split; [exact Hw|].
  rewrite (copyStreamToFile_success _ _ _ _ _ H2), lookup_insert_eq, Hw, <- app_assoc.
  reflexivity.
Qed.

(** The errors of the loop: a receive error or a write error, wrapped. *)
Lemma copyLoop_errors env fname s st e' st' :
  copyLoop env fname s st = (Ret (Some e'), st') ->
  (exists e, In (Fail e) s /\ isEOF e = false
             /\ e' = ErrWrap ("io error: " +:+ errText e) e)
  \/ (exists e t d n,
        In (Ok d) s /\ fileWrite env t fname d = Some (n, e)
        /\ e' = ErrWrap ("Error writing data: " +:+ errText e) e).
Proof.
  revert st. induction s as [|r s IH]; intros st Hrun.
  - discriminate Hrun.
  - destruct r as [d|e]; simpl in Hrun.
    + unfold bind, writeAppend, ask, bind in Hrun. simpl in Hrun.
      destruct (fileWrite env (tick st) fname d) as [[n e]|] eqn:Hw.
      * injection Hrun as <- _. right. exists e, (tick st), d, n.
        split; [left; reflexivity|]. auto.
      * destruct (IH _ Hrun) as [(e & Hin & He & ->)|(e & t & d' & n & Hin & Hf & ->)].
        -- left. exists e. split; [right; exact Hin|]. auto.
        -- right. exists e, t, d', n. split; [right; exact Hin|]. auto.
    + destruct (isEOF e) eqn:He; [discriminate Hrun|].
      injection Hrun as <- _. left. exists e. split; [left; reflexivity|]. auto.
Qed.

(** X3.  The errors [copyStreamToFile] returns are of three kinds: the
    error of the open, as it is; a receive error other than [io.EOF] that
    the stream holds, wrapped as ["io error: ..."]; the error of a write of
    one of the chunks, wrapped as ["Error writing data: ..."]. *)
Theorem copyStreamToFile_errors env fname stream st e' st' :
  copyStreamToFile env fname stream st = (Ret (Some e'), st') ->
  osOpenFile env (tick st) fname = Some e'
  \/ (exists s e,
        stream = Some s /\ In (Fail e) s /\ isEOF e = false
        /\ e' = ErrWrap ("io error: " +:+ errText e) e)
  \/ (exists s e t d n,
        stream = Some s /\ In (Ok d) s /\ fileWrite env t fname d = Some (n, e)
        /\ e' = ErrWrap ("Error writing data: " +:+ errText e) e).
Proof.
  intros Hrun. unfold copyStreamToFile, bind in Hrun.
  destruct (osOpenFile env (tick st) fname) as [e|] eqn:Ho.
  - rewrite (openAppend_fail _ _ _ _ Ho) in Hrun. injection Hrun as <- _.
    left. reflexivity.
  - rewrite (openAppend_ok _ _ _ Ho) in Hrun.
    destruct stream as [s|]; [|discriminate Hrun]. right.
    destruct (copyLoop_errors _ _ _ _ _ _ Hrun)
      as [(e & Hin & He & ->)|(e & t & d & n & Hin & Hf & ->)].
    + left. exists s, e. auto.
    + right. exists s, e, t, d, n. auto.
Qed.

(** ** More on resolution and dial *)

(** What [DialMonitor] leaves behind: only events of resolution and dial,
    those of the mode of the session, with at most one dial. *)
Lemma DialMonitor_events_gen env s node st :
  exists c st' evs,
    DialMonitor env s node st = (Ret c, st')
    /\ trace st' = trace st ++ evs
    /\ files st' = files st
    /\ Forall resolutionEvent evs
    /\ (portForward s = false -> Forall (directEvent node) evs)
    /\ (portForward s = true -> Forall (tunnelEvent node) evs)
    /\ match c with
       | Ok conn => dialled evs = [conn]
       | Fail _ => length (dialled evs) <= 1
       end.
Proof.
  assert (Hfin : forall c st' evs,
             DialMonitor env s node st = (Ret c, st') ->
             trace st' = trace st ++ evs ->
             files st' = files st ->
             Forall resolutionEvent evs ->
             (portForward s = false -> Forall (directEvent node) evs) ->
             (portForward s = true -> Forall (tunnelEvent node) evs) ->
             match c with
             | Ok conn => dialled evs = [conn]
             | Fail _ => length (dialled evs) <= 1
             end ->
             exists c st' evs,
               DialMonitor env s node st = (Ret c, st')
               /\ trace st' = trace st ++ evs
               /\ files st' = files st
               /\ Forall resolutionEvent evs
               /\ (portForward s = false -> Forall (directEvent node) evs)
               /\ (portForward s = true -> Forall (tunnelEvent node) evs)
               /\ match c with
                  | Ok conn => dialled evs = [conn]
                  | Fail _ => length (dialled evs) <= 1
                  end).
  { intros c st' evs H1 H2 H3 H4 H5 H6 H7. exists c, st', evs. auto 10. }
  destruct (portForward s) eqn:Hpf.
  - pose proof (srvAddrForNode_tunnel env s node st Hpf) as Hr.
    destruct (KubeGetPodForNode env (tick st) node monitorSelector) as [pod|e].
    + pose proof (DialMonitor_unfold _ _ _ _ _ _ Hr) as Hu.
      destruct (KubePortForward env (S (tick st)) pod monitorPort) as [port|e].
      * eapply (Hfin _ _ [EvGetPodForNode node monitorSelector;
                          EvPortForward pod monitorPort;
                          EvDial (JoinHostPort "localhost" port)]);
          [exact Hu
          |simpl; rewrite <- app_assoc; reflexivity
          |reflexivity
          |repeat constructor
          |discriminate
          |intros _; repeat constructor
          |destruct (grpcDial env _ _); simpl; auto].
      * eapply (Hfin _ _ [EvGetPodForNode node monitorSelector;
                          EvPortForward pod monitorPort]);
          [exact Hu|reflexivity|reflexivity|repeat constructor
          |discriminate|intros _; repeat constructor|simpl; lia].
    + pose proof (DialMonitor_unfold _ _ _ _ _ _ Hr) as Hu.
      eapply (Hfin _ _ [EvGetPodForNode node monitorSelector]);
        [exact Hu|reflexivity|reflexivity|repeat constructor
        |discriminate|intros _; repeat constructor|simpl; lia].
  - pose proof (srvAddrForNode_direct env s node st Hpf) as Hr.
    pose proof (DialMonitor_unfold _ _ _ _ _ _ Hr) as Hu.
    destruct (KubeGetNodeIP env (tick st) node) as [ip|e].
    + eapply (Hfin _ _ [EvGetNodeIP node; EvDial (JoinHostPort ip monitorPort)]);
        [exact Hu
        |simpl; rewrite <- app_assoc; reflexivity
        |reflexivity
        |repeat constructor
        |intros _; repeat constructor
        |discriminate
        |destruct (grpcDial env _ _); simpl; auto].
    + eapply (Hfin _ _ [EvGetNodeIP node]);
        [exact Hu|reflexivity|reflexivity|repeat constructor
        |intros _; repeat constructor|discriminate|simpl; lia].
Qed.

(** X4.  [DialMonitor] keeps to the mode of the session.  With direct
    connectivity it asks only for the IP of the node, never for a pod or a
    tunnel; with tunnelled connectivity it asks only for the pod of the
    node under the selector [role=monitor] and forwards only port 8451,
    never asking for the node's IP.  Either way it dials at most once,
    touches no file, and the connection it returns is the one address it
    dialled. *)
Theorem DialMonitor_events env s node st :
  exists c evs,
    fst (DialMonitor env s node st) = Ret c
    /\ trace (snd (DialMonitor env s node st)) = trace st ++ evs
    /\ files (snd (DialMonitor env s node st)) = files st
    /\ (portForward s = false -> Forall (directEvent node) evs)
    /\ (portForward s = true -> Forall (tunnelEvent node) evs)
    /\ match c with
       | Ok conn => dialled evs = [conn]
       | Fail _ => length (dialled evs) <= 1
       end.
Proof.
  destruct (DialMonitor_events_gen env s node st)
    as (c & st' & evs & Hd & Ht & Hf & _ & Hdirect & Htunnel & Hdial).
  exists c, evs. rewrite Hd. auto 10.
Qed.

(** ** More on the sysinfo side channel *)

Lemma opened_app (a b : list event) : opened (a ++ b) = opened a ++ opened b.
Proof. apply omap_app. Qed.

Lemma opened_resolution evs : Forall resolutionEvent evs -> opened evs = [].
Proof.
  induction 1 as [|e evs He _ IH]; [reflexivity|].
  destruct e; try destruct He; exact IH.
Qed.

(** [GetSysInfoNode], step by step. *)
Lemma GetSysInfoNode_cases env s name ip st :
  exists c st1 evs,
    DialMonitor env s name st = (Ret c, st1)
    /\ trace st1 = trace st ++ evs
    /\ files st1 = files st
    /\ Forall resolutionEvent evs
    /\ GetSysInfoNode env s name ip st =
       match c with
       | Fail e => (Ret (Some e), st1)
       | Ok conn =>
         match rpcGetSysInfo env (tick st1) conn with
         | Fail e =>
           (Ret (Some (Errorf_w ("failed to retrieve sysinfo from monitor on "
                                 +:+ fmtQ env name +:+ ": ") e)),
            stepState [EvGetSysInfo conn] 1 st1)
         | Ok stream =>
           copyStreamToFile env (sysinfoPath s name) (Some stream)
             (stepState [EvGetSysInfo conn] 1 st1)
         end
       end.
Proof.
  destruct (DialMonitor_events_gen env s name st)
    as (c & st1 & evs & Hd & Ht & Hf & Hres & _).
  exists c, st1, evs. repeat (split; [assumption|]).
  unfold GetSysInfoNode, bind. rewrite Hd.
  destruct c as [conn|e]; [|reflexivity].
  unfold emit, ask. cbn [tick emitState tickState].
  assert (Hst : tickState (emitState (EvGetSysInfo conn) st1)
                = stepState [EvGetSysInfo conn] 1 st1).
  { unfold tickState, emitState, stepState. simpl. rewrite Nat.add_1_r. reflexivity. }
  fold (emitState (EvGetSysInfo conn) st1).
  fold (tickState (emitState (EvGetSysInfo conn) st1)).
  rewrite Hst.
  destruct (rpcGetSysInfo env (tick st1) conn); reflexivity.
Qed.

(** X5.  [GetSysInfoNode] writes to no file but the sysinfo file of the
    node, and that file only grows at its end.  It opens the file at most
    once, and only after both the dial and the [GetSysInfo] call succeeded:
    when it opens the file, [DialMonitor] gave a connection, the call on it
    gave a stream, and the opening is the last event, right after that
    call, which follows the events of the dial.  When it opens nothing, the
    files are as before. *)
Theorem GetSysInfoNode_files env s name ip st :
  let st' := snd (GetSysInfoNode env s name ip st) in
  exists evs,
    trace st' = trace st ++ evs
    /\ (opened evs = [] \/ opened evs = [sysinfoPath s name])
    /\ (opened evs = [sysinfoPath s name] ->
        exists conn st1 stream evs1,
          DialMonitor env s name st = (Ret (Ok conn), st1)
          /\ trace st1 = trace st ++ evs1
          /\ opened evs1 = []
          /\ rpcGetSysInfo env (tick st1) conn = Ok stream
          /\ evs = evs1 ++ [EvGetSysInfo conn; EvOpenFile (sysinfoPath s name)])
    /\ (opened evs = [] -> files st' = files st)
    /\ (forall p, p <> sysinfoPath s name -> files st' !! p = files st !! p)
    /\ (exists w, default [] (files st' !! sysinfoPath s name)
                  = default [] (files st !! sysinfoPath s name) ++ w).
Proof.
  intros st'. subst st'.
  destruct (GetSysInfoNode_cases env s name ip st)
    as (c & st1 & evs & Hd & Ht & Hf & Hres & ->).
  pose proof (opened_resolution _ Hres) as Hop.
  destruct c as [conn|e].
  - destruct (rpcGetSysInfo env (tick st1) conn) as [stream|e] eqn:Hrpc.
    + destruct (copyStreamToFile env (sysinfoPath s name) (Some stream)
                  (stepState [EvGetSysInfo conn] 1 st1)) as [o st2] eqn:Hcopy.
      destruct (copyStreamToFile_frame _ _ _ _ _ _ Hcopy) as (Ht2 & _ & _).
      destruct (copyStreamToFile_grows _ _ _ _ _ _ Hcopy) as (Hother & Hw & _).
      cbn [snd]. cbn [trace files stepState] in *.
      exists (evs ++ [EvGetSysInfo conn; EvOpenFile (sysinfoPath s name)]).
      split; [rewrite Ht2, Ht, <- !app_assoc; reflexivity|].
      rewrite opened_app, Hop. simpl.
      split; [right; reflexivity|].
      split; [intros _; exists conn, st1, stream, evs; auto|].
      split; [discriminate|].
      rewrite Hf in Hother, Hw. auto.
    + cbn [snd trace files stepState].
      exists (evs ++ [EvGetSysInfo conn]).
      split; [rewrite Ht, <- app_assoc; reflexivity|].
      rewrite opened_app, Hop. simpl. rewrite Hf.
      split; [left; reflexivity|]. split; [discriminate|].
      split; [reflexivity|]. split; [reflexivity|].
      exists []. symmetry. apply app_nil_r.
  - cbn [snd]. exists evs. split; [exact Ht|]. rewrite Hop, Hf.
    split; [left; reflexivity|]. split; [discriminate|].
    split; [reflexivity|]. split; [reflexivity|].
    exists []. symmetry. apply app_nil_r.
Qed.

(** X6.  When [GetSysInfoNode] returns nil, the dial gave a connection, the
    [GetSysInfo] call on it gave a stream, and the sysinfo file of the node
    holds what it held before followed by every chunk of that stream. *)
Theorem GetSysInfoNode_success env s name ip st st' :
  GetSysInfoNode env s name ip st = (Ret None, st') ->
  exists conn st1 stream,
    DialMonitor env s name st = (Ret (Ok conn), st1)
    /\ rpcGetSysInfo env (tick st1) conn = Ok stream
    /\ files st'
       = <[sysinfoPath s name :=
             default [] (files st !! sysinfoPath s name) ++ concat (delivered stream)]>
           (files st).
Proof.
  intros Hrun.
  destruct (GetSysInfoNode_cases env s name ip st)
    as (c & st1 & evs & Hd & _ & Hf & _ & Hcases).
  rewrite Hcases in Hrun.
  destruct c as [conn|e]; [|discriminate Hrun].
  destruct (rpcGetSysInfo env (tick st1) conn) as [stream|e] eqn:Hrpc;
    [|discriminate Hrun].
  exists conn, st1, stream. split; [exact Hd|]. split; [exact Hrpc|].
  rewrite (copyStreamToFile_success _ _ _ _ _ Hrun). cbn [files stepState received].
  rewrite Hf. reflexivity.
Qed.

Lemma string_app_nil_r (a : string) : a +:+ EmptyString = a.
Proof.
  induction a as [|x a IH]; [reflexivity|].
  change (String x (a +:+ EmptyString) = String x a). f_equal. exact IH.
Qed.





Lemma failureEntries_cons env name e fails :
  failureEntries env ((name, e) :: fails)
  = nl +:+ failureMsg env name e +:+ failureEntries env fails.
Proof. reflexivity. Qed.

(** The rows of a node listing that is well formed, gone through call by
    call: the error text gains the entries of the nodes whose last call
    failed. *)
Lemma sysInfoRows_run env s errstr lines st :
  Forall wellFormed lines ->
  exists outs st',
    rowsRun env s lines st outs st'
    /\ map fst outs = map rowName lines
    /\ sysInfoRows env s errstr lines st
       = (Ret (errstr +:+ failureEntries env (finalFailures outs)), st').
Proof.
  intros Hwf. revert errstr st.
  induction Hwf as [|line rest Hline _ IH]; intros errstr st.
  - exists [], st. split; [constructor|]. split; [reflexivity|].
    simpl. rewrite string_app_nil_r. reflexivity.
  - destruct (wellFormed_fields _ Hline) as (name & ip & Hfields).
    destruct (sysInfoRetry_chain env s name ip errstr retriesOrig st)
      as (k & x & e1 & stb & st1 & _ & Hch & Hg & Hrun & _ & _ & Hx).
    destruct (IH e1 st1) as (outs & st' & Hrows & Hnames & Hrest).
    assert (Hname : rowName line = name) by (unfold rowName; rewrite Hfields; reflexivity).
    exists ((name, x) :: outs), st'.
    split; [|split].
    + eapply rowsRun_cons; [exact Hfields|exact Hch|exact Hg| |exact Hrows].
      destruct x; [right; apply Hx|left; reflexivity].
    + simpl. rewrite Hname, Hnames. reflexivity.
    + simpl. unfold bind.
      rewrite (sysInfoRow_wf _ _ _ _ _ _ Hfields), Hrun, Hrest.
      destruct x as [e|]; [|subst e1; reflexivity].
      destruct Hx as [_ ->]. unfold finalFailures. simpl.
      rewrite !string_app_assoc. reflexivity.
Qed.

Lemma finalFailures_sublist outs :
  sublist (map fst (finalFailures outs)) (map fst outs).
Proof.
  induction outs as [|[name [e|]] outs IH]; simpl.
  - constructor.
  - apply sublist_skip, IH.
  - apply sublist_cons, IH.
Qed.

(** X8.  For a node listing whose rows are all well formed, the error
    [GetSysInfoNodes] returns lists the nodes that failed for good, one
    entry each, in the order of the listing; it returns nil exactly when no
    node failed for good.  The rows are gone through one by one
    ([rowsRun]): for each, [outs] holds its node with what the last call on
    that node returned, a call that failed being the last only after 10
    failed calls before it.  The nodes that failed for good are those whose
    last call returned an error ([finalFailures]), each entry holding that
    error. *)
Theorem GetSysInfoNodes_error_text env s st lines :
  KubeGetNodesAndIps env (tick st) = Ok lines ->
  Forall wellFormed lines ->
  exists outs st',
    rowsRun env s lines (tickState st) outs st'
    /\ map fst outs = map rowName lines
    /\ GetSysInfoNodes env s st
       = (Ret match finalFailures outs with
              | [] => None
              | _ => Some (ErrStr ("GetSysInfoNodes() failed:" +:+ nl
                                   +:+ failureEntries env (finalFailures outs)))
              end, st')
    /\ sublist (map fst (finalFailures outs)) (map rowName lines).
Proof.
  intros Hlines Hwf.
  destruct (sysInfoRows_run env s EmptyString lines (tickState st) Hwf)
    as (outs & st' & Hrows & Hnames & Hrun).
  exists outs, st'. split; [exact Hrows|]. split; [exact Hnames|].
  split; [|rewrite <- Hnames; apply finalFailures_sublist].
  rewrite (GetSysInfoNodes_unfold _ _ _ _ Hlines), Hrun.
  destruct (finalFailures outs) as [|[n e] fails]; reflexivity.
Qed.

(** ** The sysinfo files of a node listing *)

Lemma string_length_app (a b : string) :
  String.length (a +:+ b) = String.length a + String.length b.
Proof.
  induction a as [|x a IH]; [reflexivity|].
  change (S (String.length (a +:+ b)) = S (String.length a + String.length b)).
  f_equal. exact IH.
Qed.

Lemma string_app_inv_r (a b c : string) : a +:+ c = b +:+ c -> a = b.
Proof.
  revert b. induction a as [|x a IH]; intros [|y b] H.
  - reflexivity.
  - apply (f_equal String.length) in H.
    change (String.length c = S (String.length (b +:+ c))) in H.
    rewrite string_length_app in H. lia.
  - apply (f_equal String.length) in H.
    change (S (String.length (a +:+ c)) = String.length c) in H.
    rewrite string_length_app in H. lia.
  - change (String x (a +:+ c) = String y (b +:+ c)) in H.
    injection H as -> H. f_equal. apply IH, H.
Qed.

(** Two nodes share no sysinfo file. *)
Lemma sysinfoPath_inj s a b : sysinfoPath s a = sysinfoPath s b -> a = b.
Proof.
  unfold sysinfoPath. intros H.
  apply (inj (String.app (dir s))) in H.
  apply (inj (String.app "/")) in H.
  apply string_app_inv_r in H. exact H.
Qed.

(** A call that returns nil has put the whole stream at the end of the
    sysinfo file of the node. *)
Lemma GetSysInfoNode_nil_content env s name ip st st' :
  GetSysInfoNode env s name ip st = (Ret None, st') ->
  exists conn st1 stream,
    DialMonitor env s name st = (Ret (Ok conn), st1)
    /\ rpcGetSysInfo env (tick st1) conn = Ok stream
    /\ files st'
       = <[sysinfoPath s name :=
             default [] (files st !! sysinfoPath s name) ++ concat (delivered stream)]>
           (files st).
Proof.
  intros Hrun.
  destruct (GetSysInfoNode_cases env s name ip st)
    as (c & st1 & evs & Hd & _ & Hf & _ & Hcases).
  rewrite Hcases in Hrun.
  destruct c as [conn|e]; [|discriminate Hrun].
  destruct (rpcGetSysInfo env (tick st1) conn) as [stream|e] eqn:Hrpc;
    [|discriminate Hrun].
  exists conn, st1, stream. split; [exact Hd|]. split; [exact Hrpc|].
  rewrite (copyStreamToFile_success _ _ _ _ _ Hrun). cbn [files stepState received].
  rewrite Hf. reflexivity.
Qed.

(** A call leaves the files of the other nodes alone. *)
Lemma GetSysInfoNode_other env s name ip st p :
  p <> sysinfoPath s name ->
  files (snd (GetSysInfoNode env s name ip st)) !! p = files st !! p.
Proof.
  intros Hp.
  destruct (GetSysInfoNode_cases env s name ip st)
    as (c & st1 & evs & _ & _ & Hf & _ & ->).
  destruct c as [conn|e]; [|cbn [snd]; rewrite Hf; reflexivity].
  destruct (rpcGetSysInfo env (tick st1) conn) as [stream|e].
  - destruct (copyStreamToFile env (sysinfoPath s name) (Some stream)
                (stepState [EvGetSysInfo conn] 1 st1)) as [o st2] eqn:Hcopy.
    destruct (copyStreamToFile_grows _ _ _ _ _ _ Hcopy) as (Hother & _).
    cbn [snd]. rewrite (Hother p Hp). cbn [files stepState]. rewrite Hf. reflexivity.
  - cbn [snd files stepState]. rewrite Hf. reflexivity.
Qed.

(** So does the whole retry loop of a node. *)
Lemma sysInfoRetry_other env s name ip errstr retries st p :
  p <> sysinfoPath s name ->
  files (snd (sysInfoRetry env s name ip errstr retries st)) !! p = files st !! p.
Proof.
  intros Hp. revert st. induction retries as [|retries' IH]; intros st.
  - destruct (GetSysInfoNode_frame env s name ip
                (emitState (EvLog (attemptMsg name ip 0)) st)) as (x & st1 & Hg & _).
    pose proof (GetSysInfoNode_other env s name ip
                  (emitState (EvLog (attemptMsg name ip 0)) st) p Hp) as Ho.
    rewrite Hg in Ho. cbn [snd files emitState] in Ho.
    rewrite (sysInfoRetry_step _ _ _ _ _ _ _ _ _ Hg).
    destruct x; exact Ho.
  - destruct (GetSysInfoNode_frame env s name ip
                (emitState (EvLog (attemptMsg name ip (S retries'))) st))
      as (x & st1 & Hg & _).
    pose proof (GetSysInfoNode_other env s name ip
                  (emitState (EvLog (attemptMsg name ip (S retries'))) st) p Hp) as Ho.
    rewrite Hg in Ho. cbn [snd files emitState] in Ho.
    rewrite (sysInfoRetry_step _ _ _ _ _ _ _ _ _ Hg).
    destruct x; [|exact Ho].
    rewrite IH. cbn [files emitState]. exact Ho.
Qed.

(** C6.  For the rows of three nodes A, B, C where every sysinfo call on B
    fails and the calls on A and C succeed, [GetSysInfoNodes] returns one
    error whose text holds one entry, the one of B, and the sysinfo files
    of A and C are written under the session directory: each holds what it
    held before the call followed by every chunk of the stream that
    [GetSysInfo] returned on the connection dialled for that node, for A in
    the first call of the listing and for C in the call that follows the
    rows of A and B.  When the calls succeed for every row it returns
    nil. *)
Theorem sysinfo_aggregate env s st :
  (forall lA lB lC A B C ipA ipB ipC,
      Fields lA = [A; ipA] -> Fields lB = [B; ipB] -> Fields lC = [C; ipC] ->
      KubeGetNodesAndIps env (tick st) = Ok [lA; lB; lC] ->
      A <> C ->
      (forall st0, fst (GetSysInfoNode env s A ipA st0) = Ret None) ->
      (forall st0, exists e, fst (GetSysInfoNode env s B ipB st0) = Ret (Some e)) ->
      (forall st0, fst (GetSysInfoNode env s C ipC st0) = Ret None) ->
      exists e st' connA stA streamA stB connC stC streamC,
        GetSysInfoNodes env s st
        = (Ret (Some (ErrStr ("GetSysInfoNodes() failed:" +:+ nl +:+ nl
                              +:+ "Error calling GetSysInfoNode " +:+ B
                              +:+ " after 10 retries (last error:"
                              +:+ sprintfW env e +:+ ")"))), st')
        /\ DialMonitor env s A
             (emitState (EvLog (attemptMsg A ipA 10)) (tickState st))
           = (Ret (Ok connA), stA)
        /\ rpcGetSysInfo env (tick stA) connA = Ok streamA
        /\ files st' !! (dir s +:+ "/" +:+ A +:+ ".sysinfo")
           = Some (default [] (files st !! (dir s +:+ "/" +:+ A +:+ ".sysinfo"))
                   ++ concat (delivered streamA))
        /\ sysInfoRows env s EmptyString [lA; lB] (tickState st)
           = (Ret (nl +:+ "Error calling GetSysInfoNode " +:+ B
                   +:+ " after 10 retries (last error:" +:+ sprintfW env e +:+ ")"),
              stB)
        /\ DialMonitor env s C (emitState (EvLog (attemptMsg C ipC 10)) stB)
           = (Ret (Ok connC), stC)
        /\ rpcGetSysInfo env (tick stC) connC = Ok streamC
        /\ files st' !! (dir s +:+ "/" +:+ C +:+ ".sysinfo")
           = Some (default [] (files st !! (dir s +:+ "/" +:+ C +:+ ".sysinfo"))
                   ++ concat (delivered streamC)))
  /\ (forall lines,
      KubeGetNodesAndIps env (tick st) = Ok lines ->
      (forall line, line ∈ lines ->
         exists name ip,
           Fields line = [name; ip]
           /\ forall st0, fst (GetSysInfoNode env s name ip st0) = Ret None) ->
      fst (GetSysInfoNodes env s st) = Ret None).
Proof.
  split.
  - intros lA lB lC A B C ipA ipB ipC HfA HfB HfC Hlines HAC HA HB HC.
    assert (HAB : sysinfoPath s A <> sysinfoPath s B).
    { intros H. apply sysinfoPath_inj in H. subst B.
      destruct (HB st) as (e & He). specialize (HA st).
      change (GetSysInfoNode env s A ipB st) with (GetSysInfoNode env s A ipA st) in He.
      rewrite HA in He. discriminate He. }
    assert (HCB : sysinfoPath s C <> sysinfoPath s B).
    { intros H. apply sysinfoPath_inj in H. subst B.
      destruct (HB st) as (e & He). specialize (HC st).
      change (GetSysInfoNode env s C ipB st) with (GetSysInfoNode env s C ipC st) in He.
      rewrite HC in He. discriminate He. }
    assert (HAC' : sysinfoPath s A <> sysinfoPath s C).
    { intros H. apply HAC, (sysinfoPath_inj _ _ _ H). }
    fold (sysinfoPath s A). fold (sysinfoPath s C).
    (* the row of A: one call *)
    destruct (GetSysInfoNode env s A ipA
                (emitState (EvLog (attemptMsg A ipA retriesOrig)) (tickState st)))
      as [oA stA1] eqn:HgA.
    pose proof (HA (emitState (EvLog (attemptMsg A ipA retriesOrig)) (tickState st)))
      as HoA.
    rewrite HgA in HoA. cbn [fst] in HoA. subst oA.
    pose proof (sysInfoRetry_step env s A ipA EmptyString retriesOrig _ _ _ HgA)
      as HrunA. cbv iota in HrunA.
    destruct (GetSysInfoNode_nil_content _ _ _ _ _ _ HgA)
      as (connA & stA & streamA & HdA & HrpcA & HfilesA).
    cbn [files emitState tickState] in HfilesA.
    (* the row of B: every call fails *)
    destruct (sysInfoRetry_chain env s B ipB EmptyString retriesOrig stA1)
      as (kB & xB & eB & sbB & stB & _ & _ & HgB & HrunB & _ & _ & HxB).
    destruct (HB (emitState (EvLog (attemptMsg B ipB (retriesOrig - kB))) sbB))
      as (e & He).
    rewrite HgB in He. cbn [fst] in He. injection He as ->.
    destruct HxB as [_ ->].
    assert (HotherB : forall p, p <> sysinfoPath s B ->
                                files stB !! p = files stA1 !! p).
    { intros p Hp.
      pose proof (sysInfoRetry_other env s B ipB EmptyString retriesOrig stA1 p Hp) as H.
      rewrite HrunB in H. exact H. }
    (* the row of C: one call *)
    destruct (GetSysInfoNode env s C ipC
                (emitState (EvLog (attemptMsg C ipC retriesOrig)) stB))
      as [oC stC1] eqn:HgC.
    pose proof (HC (emitState (EvLog (attemptMsg C ipC retriesOrig)) stB)) as HoC.
    rewrite HgC in HoC. cbn [fst] in HoC. subst oC.
    pose proof (sysInfoRetry_step env s C ipC
                  (EmptyString +:+ nl +:+ failureMsg env B e) retriesOrig _ _ _ HgC)
      as HrunC. cbv iota in HrunC.
    destruct (GetSysInfoNode_nil_content _ _ _ _ _ _ HgC)
      as (connC & stC & streamC & HdC & HrpcC & HfilesC).
    cbn [files emitState] in HfilesC.
    assert (HrowsAB : sysInfoRows env s EmptyString [lA; lB] (tickState st)
                      = (Ret (EmptyString +:+ nl +:+ failureMsg env B e), stB)).
    { simpl. unfold bind.
      rewrite (sysInfoRow_wf _ _ _ _ _ _ HfA), HrunA.
      rewrite (sysInfoRow_wf _ _ _ _ _ _ HfB), HrunB. reflexivity. }
    assert (HcontA : files stC1 !! sysinfoPath s A
                     = Some (default [] (files st !! sysinfoPath s A)
                             ++ concat (delivered streamA))).
    { rewrite HfilesC, lookup_insert_ne by (intros H; apply HAC'; symmetry; exact H).
      rewrite (HotherB _ HAB), HfilesA. apply lookup_insert_eq. }
    assert (HcontC : files stC1 !! sysinfoPath s C
                     = Some (default [] (files st !! sysinfoPath s C)
                             ++ concat (delivered streamC))).
    { rewrite HfilesC, lookup_insert_eq. rewrite (HotherB _ HCB), HfilesA.
      rewrite lookup_insert_ne by exact HAC'. reflexivity. }
    exists e, stC1, connA, stA, streamA, stB, connC, stC, streamC.
    split.
    { rewrite (GetSysInfoNodes_unfold _ _ _ _ Hlines).
      change [lA; lB; lC] with ([lA; lB] ++ [lC]).
      rewrite (sysInfoRows_app env s EmptyString [lA; lB] [lC] _ _ _ HrowsAB).
      simpl. unfold bind.
      rewrite (sysInfoRow_wf _ _ _ _ _ _ HfC), HrunC.
      unfold ret. rewrite sysInfoResult_entry. reflexivity. }
    split; [exact HdA|]. split; [exact HrpcA|]. split; [exact HcontA|].
    split; [exact HrowsAB|]. split; [exact HdC|]. split; [exact HrpcC|].
    exact HcontC.
  - intros lines Hlines Hok.
    rewrite (GetSysInfoNodes_unfold _ _ _ _ Hlines).
    destruct (sysInfoRows_all_ok env s EmptyString lines (tickState st) Hok)
      as (st' & Hrun).
    rewrite Hrun. reflexivity.
Qed.

(** ** More on startCollection *)

Lemma resolution_startEvent r e : resolutionEvent e -> startEvent r e.
Proof. destruct e; simpl; tauto. Qed.

Lemma startEvent_runid r1 r2 e :
  runid r1 = runid r2 -> startEvent r1 e -> startEvent r2 e.
Proof. intros Hr. destruct e; simpl; try tauto. rewrite Hr. tauto. Qed.

Lemma DialMonitor_attempted_events env s node st c st1 evs :
  DialMonitor env s node st = (Ret c, st1) ->
  trace st1 = trace st ++ evs ->
  attemptedNodes evs = [node].
Proof.
  intros Hd Ht.
  destruct (DialMonitor_trace env s node st) as (c' & st1' & Hd' & _ & Ha).
  rewrite Hd in Hd'. injection Hd' as _ <-.
  rewrite Ht, attemptedNodes_app in Ha. apply app_inv_head in Ha. exact Ha.
Qed.

(** What the second loop of [startCollection] leaves behind. *)
Lemma startLoop_events env r nodes st :
  exists r' err st' evs,
    startLoop env r nodes st = (Ret (r', err), st')
    /\ trace st' = trace st ++ evs
    /\ Forall (startEvent r) evs
    /\ files st' = files st
    /\ attemptedNodes evs `prefix_of` nodes.
Proof.
  revert r st. induction nodes as [|node rest IH]; intros r st.
  - exists r, None, st, []. rewrite app_nil_r. repeat split; try constructor; auto.
  - destruct (DialMonitor_events_gen env (session r) node st)
      as (c & st1 & evs1 & Hd & Ht & Hf & Hres & _).
    pose proof (DialMonitor_attempted_events _ _ _ _ _ _ _ Hd Ht) as Ha.
    rewrite (startLoop_step _ _ _ _ _ _ _ Hd).
    destruct c as [conn|e].
    + cbv zeta.
      set (rpc := rpcStartCollection env (tick st1) conn "5" (runid r)).
      destruct (nextCtx_fields r node rpc) as (_ & Hr & _).
      destruct (IH (nextCtx r node rpc) (startState r conn node rpc st1))
        as (r' & err & st' & evs2 & Hrun & Ht2 & Hev2 & Hf2 & Hpre).
      exists r', err, st',
        (evs1 ++ [EvStartCollection conn "5" (runid r);
                  EvLog match rpc with
                        | None => startedMsg node
                        | Some e => startFailedMsg node e
                        end] ++ evs2).
      split; [exact Hrun|]. split; [|split; [|split]].
      * rewrite Ht2. unfold startState, stepState. cbn [trace].
        rewrite Ht, <- !app_assoc. reflexivity.
      * apply Forall_app. split.
        { eapply Forall_impl; [exact Hres|]. intros e. apply resolution_startEvent. }
        apply Forall_app. split.
        { repeat constructor. }
        eapply Forall_impl; [exact Hev2|]. intros e. apply startEvent_runid, Hr.
      * rewrite Hf2. unfold startState, stepState. cbn [files]. exact Hf.
      * rewrite !attemptedNodes_app, Ha. simpl. apply prefix_cons, Hpre.
    + exists r, (Some e), st1, evs1.
      split; [reflexivity|]. split; [exact Ht|]. split.
      * eapply Forall_impl; [exact Hres|]. intros e'. apply resolution_startEvent.
      * split; [exact Hf|]. rewrite Ha. apply prefix_cons, prefix_nil.
Qed.

(** A row without a second field: the first loop panics on indexing it,
    after logging the rows up to it. *)
Lemma podNodes_short pre bad post nodes st :
  Forall (fun a => is_Some (a !! 1%nat)) pre ->
  bad !! 1%nat = None ->
  podNodes (pre ++ bad :: post) nodes st
  = (Panic "index out of range [1]",
     {| tick := tick st; files := files st;
        trace := trace st ++ map rowLog (pre ++ [bad]) |}).
Proof.
  intros Hpre Hbad. revert nodes st.
  induction Hpre as [|a pre [node Ha] _ IH]; intros nodes st.
  - simpl. unfold bind, logPrintf, emit. simpl. rewrite Hbad. reflexivity.
  - simpl. unfold bind, logPrintf, emit. simpl. rewrite Ha.
    rewrite IH. simpl. rewrite <- app_assoc. reflexivity.
Qed.

Lemma first_short_row (podsinfo : list (list string)) :
  ~ Forall (fun a => is_Some (a !! 1%nat)) podsinfo ->
  exists pre bad post,
    podsinfo = pre ++ bad :: post
    /\ Forall (fun a => is_Some (a !! 1%nat)) pre
    /\ bad !! 1%nat = None.
Proof.
  induction podsinfo as [|a l IH]; intros Hnot.
  - exfalso. apply Hnot. constructor.
  - destruct (a !! 1%nat) as [node|] eqn:Ha.
    + destruct IH as (pre & bad & post & -> & Hpre & Hbad).
      { intros Hl. apply Hnot. constructor; [rewrite Ha; eauto|exact Hl]. }
      exists (a :: pre), bad, post. split; [reflexivity|]. split; [|exact Hbad].
      constructor; [rewrite Ha; eauto|exact Hpre].
    + exists [], a, l. simpl. auto.
Qed.

Lemma startCollection_panics env r st pre bad post :
  KubeGetPods__ env (tick st) (podLabels env) = Ok (pre ++ bad :: post) ->
  Forall (fun a => is_Some (a !! 1%nat)) pre ->
  bad !! 1%nat = None ->
  startCollection env r st
  = (Panic "index out of range [1]",
     {| tick := S (tick st); files := files st;
        trace := trace st ++ EvLog ("Pods: " +:+ nl) :: map rowLog (pre ++ [bad]) |}).
Proof.
  intros Hpods Hpre Hbad.
  unfold startCollection, bind, ask. simpl. rewrite Hpods.
  unfold logPrintf, emit. simpl.
  rewrite (podNodes_short _ _ _ _ _ Hpre Hbad). simpl.
  rewrite <- app_assoc. reflexivity.
Qed.

(** X9.  A pod row with fewer than two fields makes [startCollection]
    panic (index out of range) before any node is contacted: the rows up to
    that one have been logged, and nothing else has happened. *)
Theorem startCollection_short_row env r st pre bad post :
  KubeGetPods__ env (tick st) (podLabels env) = Ok (pre ++ bad :: post) ->
  Forall (fun a => is_Some (a !! 1%nat)) pre ->
  bad !! 1%nat = None ->
  exists msg,
    startCollection env r st
    = (Panic msg,
       {| tick := S (tick st); files := files st;
          trace := trace st ++ EvLog ("Pods: " +:+ nl) :: map rowLog (pre ++ [bad]) |}).
Proof.
  intros Hpods Hpre Hbad. eexists.
  exact (startCollection_panics env r st pre bad post Hpods Hpre Hbad).
Qed.

Lemma rowLogs_startEvent r (l : list (list string)) :
  Forall (startEvent r) (map rowLog l).
Proof. induction l; simpl; constructor; simpl; auto. Qed.

(** What [startCollection] leaves behind, however it ends. *)
Lemma startCollection_events_gen env r st :
  exists o st' evs,
    startCollection env r st = (o, st')
    /\ trace st' = trace st ++ evs
    /\ Forall (startEvent r) evs
    /\ files st' = files st
    /\ NoDup (attemptedNodes evs)
    /\ forall n, n ∈ attemptedNodes evs ->
         exists podsinfo a,
           KubeGetPods__ env (tick st) (podLabels env) = Ok podsinfo
           /\ a ∈ podsinfo /\ a !! 1%nat = Some n.
Proof.
  destruct (KubeGetPods__ env (tick st) (podLabels env)) as [podsinfo|e] eqn:Hpods.
  - destruct (decide (Forall (fun a => is_Some (a !! 1%nat)) podsinfo)) as [Hrows|Hrows].
    + rewrite (startCollection_unfold _ _ _ _ Hpods Hrows).
      destruct (startLoop_events env r (startOrder env st podsinfo) (startEntry st podsinfo))
        as (r' & err & st' & evs & Hrun & Ht & Hev & Hf & Hpre).
      destruct (startOrder_nodes env st podsinfo) as (Hnd & Hin).
      destruct Hpre as (k & Hk).
      exists (Ret (r', err)), st', (EvLog ("Pods: " +:+ nl) :: map rowLog podsinfo ++ evs).
      split; [exact Hrun|]. split; [|split; [|split; [|split]]].
      * rewrite Ht. unfold startEntry. cbn [trace].
        rewrite <- app_assoc. reflexivity.
      * constructor; [exact I|]. apply Forall_app. split; [apply rowLogs_startEvent|exact Hev].
      * rewrite Hf. reflexivity.
      * change (NoDup (attemptedNodes (map rowLog podsinfo ++ evs))).
        rewrite attemptedNodes_app, attemptedNodes_rowLogs. simpl.
        rewrite Hk in Hnd. apply NoDup_app in Hnd. apply Hnd.
      * intros n Hn.
        change (n ∈ attemptedNodes (map rowLog podsinfo ++ evs)) in Hn.
        rewrite attemptedNodes_app, attemptedNodes_rowLogs in Hn. simpl in Hn.
        exists podsinfo.
        destruct (proj1 (Hin n)) as (a & Ha & Han).
        { rewrite Hk. apply elem_of_app. left. exact Hn. }
        exists a. auto.
    + destruct (first_short_row _ Hrows) as (pre & bad & post & -> & Hpre & Hbad).
      pose proof (startCollection_panics env r st pre bad post Hpods Hpre Hbad) as Hrun.
      eexists _, _, (EvLog ("Pods: " +:+ nl) :: map rowLog (pre ++ [bad])).
      split; [exact Hrun|]. cbn [trace files].
      split; [reflexivity|]. split; [constructor; [exact I|apply rowLogs_startEvent]|].
      split; [reflexivity|].
      change (attemptedNodes (EvLog ("Pods: " +:+ nl) :: map rowLog (pre ++ [bad])))
        with (attemptedNodes (map rowLog (pre ++ [bad]))).
      rewrite attemptedNodes_rowLogs. split; [constructor|].
      intros n Hn. apply elem_of_nil in Hn. destruct Hn.
  - exists (Ret (r, Some e)), (tickState st), [].
    split; [unfold startCollection, bind, ask; simpl; rewrite Hpods; reflexivity|].
    cbn [trace files tickState]. rewrite app_nil_r.
    split; [reflexivity|]. split; [constructor|]. split; [reflexivity|].
    split; [constructor|]. intros n Hn. apply elem_of_nil in Hn. destruct Hn.
Qed.

(** X10.  However it ends, [startCollection] contacts no node twice, and
    only nodes that the pod listing names as hosting a pod of the session:
    when the listing fails, or is empty, it contacts nobody. *)
Theorem startCollection_contacts env r st :
  let st' := snd (startCollection env r st) in
  exists contacted,
    attemptedNodes (trace st') = attemptedNodes (trace st) ++ contacted
    /\ NoDup contacted
    /\ forall n, n ∈ contacted ->
         exists podsinfo a,
           KubeGetPods__ env (tick st) (podLabels env) = Ok podsinfo
           /\ a ∈ podsinfo /\ a !! 1%nat = Some n.
Proof.
  intros st'. subst st'.
  destruct (startCollection_events_gen env r st)
    as (o & st' & evs & Hrun & Ht & _ & _ & Hnd & Hin).
  rewrite Hrun. cbn [snd]. exists (attemptedNodes evs).
  rewrite Ht, attemptedNodes_app. auto.
Qed.


(** ** More on endCollection *)

Lemma resolution_endEvent r e : resolutionEvent e -> endEvent r e.
Proof. destruct e; simpl; tauto. Qed.

(** What the loop of [endCollection] leaves behind, however it ends. *)
Lemma endLoop_events env r nodes st :
  (forall n, n ∈ nodes -> n ∈ collectNodes r) ->
  exists o st' evs,
    endLoop env r nodes st = (o, st')
    /\ trace st' = trace st ++ evs
    /\ Forall (endEvent r) evs
    /\ (forall p, (forall n, n ∈ nodes -> p <> perfPath r n) ->
                  files st' !! p = files st !! p)
    /\ (forall p, exists w,
           default [] (files st' !! p) = default [] (files st !! p) ++ w)
    /\ (forall p, is_Some (files st !! p) -> is_Some (files st' !! p)).
Proof.
  revert st. induction nodes as [|node rest IH]; intros st Hin.
  - exists (Ret None), st, []. rewrite app_nil_r.
    split; [reflexivity|]. split; [reflexivity|]. split; [constructor|].
    split; [auto|]. split; [|auto].
    intros p. exists []. symmetry. apply app_nil_r.
  - destruct (DialMonitor_events_gen env (session r) node st)
      as (c & st1 & evs1 & Hd & Ht & Hf & Hres & _).
    assert (Hres' : Forall (endEvent r) evs1).
    { eapply Forall_impl; [exact Hres|]. intros e. apply resolution_endEvent. }
    rewrite (endLoop_step _ _ _ _ _ _ _ Hd).
    destruct c as [conn|e].
    + cbv zeta.
      destruct (rpcGetCollectionResults env (tick st1) conn (runid r)) as [stream err].
      cbn [fst snd].
      destruct (copyStreamToFile env (perfPath r node) stream
                  (retrievalState r conn node err st1)) as [o2 st2] eqn:Hcopy.
      destruct (copyStreamToFile_frame _ _ _ _ _ _ Hcopy) as (Ht2 & _ & Ho2).
      destruct (copyStreamToFile_grows _ _ _ _ _ _ Hcopy) as (Hother & Hgrow & Hsome).
      unfold retrievalState, stepState in Ht2, Hother, Hgrow, Hsome.
      cbn [trace files] in Ht2, Hother, Hgrow, Hsome.
      rewrite Hf in Hother, Hgrow, Hsome. rewrite Ht in Ht2.
      set (evsA := evs1
                   ++ (EvGetCollectionResults conn (runid r)
                       :: match err with
                          | Some e => [EvLog (collectFailedMsg node e)]
                          | None => []
                          end)
                   ++ [EvOpenFile (perfPath r node)]).
      assert (HtA : trace st2 = trace st ++ evsA).
      { rewrite Ht2. unfold evsA. rewrite <- !app_assoc. reflexivity. }
      assert (HevA : Forall (endEvent r) evsA).
      { unfold evsA. apply Forall_app. split; [exact Hres'|].
        apply Forall_app. split.
        - destruct err; repeat constructor.
        - constructor; [|constructor]. exists node.
          split; [apply Hin, elem_of_cons; auto|reflexivity]. }
      assert (HgrowA : forall p, exists w,
                 default [] (files st2 !! p) = default [] (files st !! p) ++ w).
      { intros p. destruct (decide (p = perfPath r node)) as [->|Hp].
        - exact Hgrow.
        - exists []. rewrite (Hother p Hp). symmetry. apply app_nil_r. }
      assert (HsomeA : forall p, is_Some (files st !! p) -> is_Some (files st2 !! p)).
      { intros p Hp. destruct (decide (p = perfPath r node)) as [->|Hne].
        - apply Hsome, Hp.
        - rewrite (Hother p Hne). exact Hp. }
      destruct o2 as [x|m|n]; [| |destruct Ho2].
      * destruct (IH (emitState (transferLog r node x) st2))
          as (o & st' & evs3 & Hrun & Ht3 & Hev3 & Hfr3 & Hgrow3 & Hsome3).
        { intros n Hn. apply Hin, elem_of_cons. auto. }
        cbn [trace files emitState] in Ht3, Hfr3, Hgrow3, Hsome3.
        exists o, st', (evsA ++ transferLog r node x :: evs3).
        split; [exact Hrun|]. split; [|split; [|split; [|split]]].
        -- rewrite Ht3, HtA, <- !app_assoc. reflexivity.
        -- apply Forall_app. split; [exact HevA|].
           constructor; [exact I|exact Hev3].
        -- intros p Hp. rewrite Hfr3.
           ++ apply Hother, Hp, elem_of_cons. auto.
           ++ intros n Hn. apply Hp, elem_of_cons. auto.
        -- intros p. destruct (Hgrow3 p) as (w3 & Hw3).
           destruct (HgrowA p) as (w & Hw).
           exists (w ++ w3). rewrite Hw3, Hw, <- app_assoc. reflexivity.
        -- intros p Hp. apply Hsome3, HsomeA, Hp.
      * exists (Panic m), st2, evsA.
        split; [reflexivity|]. split; [exact HtA|]. split; [exact HevA|].
        split; [|split; [exact HgrowA|exact HsomeA]].
        intros p Hp. apply Hother, Hp, elem_of_cons. auto.
    + exists (Ret (Some e)), st1, evs1.
      split; [reflexivity|]. split; [exact Ht|]. split; [exact Hres'|].
      rewrite Hf. split; [auto|]. split; [|auto].
      intros p. exists []. symmetry. apply app_nil_r.
Qed.

(** X12.  However it ends, [endCollection] never pauses, makes no remote
    call but [GetCollectionResults], each carrying the id of the run, and
    opens no file but the artifact files of the nodes of the participating
    set. *)
Theorem endCollection_events env r st :
  let st' := snd (endCollection env r st) in
  exists evs, trace st' = trace st ++ evs /\ Forall (endEvent r) evs.
Proof.
  intros st'. subst st'. unfold endCollection.
  destruct (endLoop_events env r (collectNodes r) st ltac:(auto))
    as (o & st' & evs & Hrun & Ht & Hev & _).
  rewrite Hrun. cbn [snd]. exists evs. auto.
Qed.


(** ** The monitor manifest *)






(** ** More on endCollection: when every retrieval hands out a stream *)

(** With a stream from every retrieval call, the loop returns. *)
Lemma endLoop_returns env r nodes st :
  (forall t conn id, is_Some (fst (rpcGetCollectionResults env t conn id))) ->
  exists x st', endLoop env r nodes st = (Ret x, st').
Proof.
  intros Hstream. revert st. induction nodes as [|node rest IH]; intros st.
  - eexists _, _. reflexivity.
  - destruct (DialMonitor_trace env (session r) node st) as (c & st1 & Hd & _).
    rewrite (endLoop_step _ _ _ _ _ _ _ Hd).
    destruct c as [conn|e]; [|eexists _, _; reflexivity].
    cbv zeta.
    destruct (Hstream (tick st1) conn (runid r)) as (s & Hs). rewrite Hs.
    destruct (copyStreamToFile_returns env (perfPath r node) s
                (retrievalState r conn node
                   (snd (rpcGetCollectionResults env (tick st1) conn (runid r))) st1))
      as (x & st2 & Hcopy).
    rewrite Hcopy. apply IH.
Qed.

(** X16.  When every retrieval call hands out a stream and the dial
    succeeds for every node of the participating set, [endCollection]
    returns nil after attempting every node, whatever the retrieval calls
    and the transfers report: their failures are logged only. *)
Theorem endCollection_returns_nil env r st :
  (forall t conn id, is_Some (fst (rpcGetCollectionResults env t conn id))) ->
  (forall n st0, n ∈ collectNodes r ->
     exists conn st1, DialMonitor env (session r) n st0 = (Ret (Ok conn), st1)) ->
  exists st',
    endCollection env r st = (Ret None, st')
    /\ attemptedNodes (trace st') = attemptedNodes (trace st) ++ collectNodes r.
Proof.
  intros Hstream Hdial. unfold endCollection.
  destruct (endLoop_returns env r (collectNodes r) st Hstream) as (x & st' & Hrun).
  destruct (endLoop_attempted _ _ _ _ _ _ Hrun) as (k & _ & Hatt & Hx).
  destruct x as [e|].
  - exfalso. destruct Hx as (pre & n & post & st1 & Hc & _ & _ & Hd).
    destruct (Hdial n st1) as (conn & st2 & Hok).
    { rewrite Hc. apply elem_of_app. right. apply elem_of_cons. auto. }
    rewrite Hd in Hok. discriminate Hok.
  - exists st'. split; [exact Hrun|]. rewrite Hatt, Hx, firstn_all. reflexivity.
Qed.

(** ** The further theorems at work *)

Lemma copyStreamToFile_retry_witness :
  let s1 := Some [Ok [Byte.x01; Byte.x02]; Ok [Byte.x03]; Ok [Byte.x04; Byte.x05]] in
  let s2 := Some [Ok [Byte.x09]] in
  let o1 := Ret (Some (ErrWrap "Error writing data: no space left on device"
                         (ErrStr "no space left on device"))) in
  let st1 := snd (copyStreamToFile faultWorld "/s/old.sysinfo" s1 exState) in
  let st2 := snd (copyStreamToFile faultWorld "/s/old.sysinfo" s2 st1) in
  copyStreamToFile faultWorld "/s/old.sysinfo" s1 exState = (o1, st1)
  /\ copyStreamToFile faultWorld "/s/old.sysinfo" s2 st1 = (Ret None, st2)
  /\ files st2 !! "/s/old.sysinfo"
     = Some [Byte.x00; Byte.x01; Byte.x02; Byte.x03; Byte.x04; Byte.x09].
Proof.
  intros s1 s2 o1 st1 st2.
  assert (H1 : copyStreamToFile faultWorld "/s/old.sysinfo" s1 exState = (o1, st1))
    by (vm_compute; reflexivity).
  assert (H2 : copyStreamToFile faultWorld "/s/old.sysinfo" s2 st1 = (Ret None, st2))
    by (vm_compute; reflexivity).
  split; [exact H1|]. split; [exact H2|].
  destruct (copyStreamToFile_retry faultWorld "/s/old.sysinfo" s1 s2 exState o1 st1 st2
              H1 H2) as (w & Hw & Hfile).
  rewrite Hfile. f_equal.
  assert (Hw' : w = [Byte.x01; Byte.x02; Byte.x03; Byte.x04]).
  { apply (app_inv_head [Byte.x00]). etransitivity; [symmetry; exact Hw|].
    vm_compute. reflexivity. }
  rewrite Hw'. reflexivity.
Defined.

Lemma copyStreamToFile_errors_witness :
  let s1 := Some [Ok [Byte.x01; Byte.x02]; Ok [Byte.x03]; Ok [Byte.x04; Byte.x05]] in
  let e' := ErrWrap "Error writing data: no space left on device"
              (ErrStr "no space left on device") in
  let st' := snd (copyStreamToFile faultWorld "/s/old.sysinfo" s1 exState) in
  copyStreamToFile faultWorld "/s/old.sysinfo" s1 exState = (Ret (Some e'), st')
  /\ (osOpenFile faultWorld (tick exState) "/s/old.sysinfo" = Some e'
      \/ (exists s e,
            s1 = Some s /\ In (Fail e) s /\ isEOF e = false
            /\ e' = ErrWrap ("io error: " +:+ errText e) e)
      \/ (exists s e t d n,
            s1 = Some s /\ In (Ok d) s
            /\ fileWrite faultWorld t "/s/old.sysinfo" d = Some (n, e)
            /\ e' = ErrWrap ("Error writing data: " +:+ errText e) e)).
Proof.
  intros s1 e' st'.
  assert (H1 : copyStreamToFile faultWorld "/s/old.sysinfo" s1 exState
               = (Ret (Some e'), st')) by (vm_compute; reflexivity).
  split; [exact H1|].
  exact (copyStreamToFile_errors faultWorld "/s/old.sysinfo" s1 exState e' st' H1).
Defined.

Lemma GetSysInfoNode_success_witness :
  let st' := snd (GetSysInfoNode calmWorld directSession "a" "1" exState) in
  GetSysInfoNode calmWorld directSession "a" "1" exState = (Ret None, st')
  /\ files st' !! "/s/a.sysinfo" = Some [Byte.x73; Byte.x79; Byte.x73].
Proof.
  intros st'.
  assert (H1 : GetSysInfoNode calmWorld directSession "a" "1" exState = (Ret None, st'))
    by (vm_compute; reflexivity).
  split; [exact H1|].
  destruct (GetSysInfoNode_success calmWorld directSession "a" "1" exState st' H1)
    as (conn & st1 & stream & Hd & Hrpc & Hf).
  rewrite Hf. change (sysinfoPath directSession "a") with "/s/a.sysinfo".
  rewrite lookup_insert_eq. f_equal.
  injection Hrpc as <-. reflexivity.
Defined.


Lemma GetSysInfoNodes_error_text_witness :
  KubeGetNodesAndIps lostWorld (tick exState) = Ok exLines
  /\ Forall wellFormed exLines
  /\ exists outs st',
       rowsRun lostWorld directSession exLines (tickState exState) outs st'
       /\ map fst outs = map rowName exLines
       /\ GetSysInfoNodes lostWorld directSession exState
          = (Ret match finalFailures outs with
                 | [] => None
                 | _ => Some (ErrStr ("GetSysInfoNodes() failed:" +:+ nl
                                      +:+ failureEntries lostWorld (finalFailures outs)))
                 end, st')
       /\ sublist (map fst (finalFailures outs)) (map rowName exLines).
Proof.
  assert (Hwf : Forall wellFormed exLines) by (repeat constructor).
  split; [reflexivity|]. split; [exact Hwf|].
  exact (GetSysInfoNodes_error_text lostWorld directSession exState exLines eq_refl Hwf).
Defined.

Lemma sysinfo_aggregate_witness :
  "a" <> "c"
  /\ (forall st0, fst (GetSysInfoNode lostWorld directSession "a" "1" st0) = Ret None)
  /\ (forall st0, exists e,
         fst (GetSysInfoNode lostWorld directSession "b" "2" st0) = Ret (Some e))
  /\ (forall st0, fst (GetSysInfoNode lostWorld directSession "c" "3" st0) = Ret None)
  /\ (exists e st',
        GetSysInfoNodes lostWorld directSession exState
        = (Ret (Some (ErrStr ("GetSysInfoNodes() failed:" +:+ nl +:+ nl
                              +:+ "Error calling GetSysInfoNode " +:+ "b"
                              +:+ " after 10 retries (last error:"
                              +:+ sprintfW lostWorld e +:+ ")"))), st')
        /\ files st' !! "/s/a.sysinfo" = Some [Byte.x73; Byte.x79; Byte.x73]
        /\ files st' !! "/s/c.sysinfo" = Some [Byte.x73; Byte.x79; Byte.x73]
        /\ files st' !! "/s/b.sysinfo" = None)
  /\ fst (GetSysInfoNodes calmWorld directSession exState) = Ret None.
Proof.
  assert (HAC : "a" <> "c") by discriminate.
  assert (HA : forall st0,
             fst (GetSysInfoNode lostWorld directSession "a" "1" st0) = Ret None)
    by (intros st0; reflexivity).
  assert (HB : forall st0, exists e,
             fst (GetSysInfoNode lostWorld directSession "b" "2" st0) = Ret (Some e))
    by (intros st0; eexists; reflexivity).
  assert (HC : forall st0,
             fst (GetSysInfoNode lostWorld directSession "c" "3" st0) = Ret None)
    by (intros st0; reflexivity).
  split; [exact HAC|]. split; [exact HA|]. split; [exact HB|]. split; [exact HC|].
  split.
  - destruct (proj1 (sysinfo_aggregate lostWorld directSession exState)
                "a 1" "b 2" "c 3" "a" "b" "c" "1" "2" "3"
                eq_refl eq_refl eq_refl eq_refl HAC HA HB HC)
      as (e & st' & connA & stA & streamA & stB & connC & stC & streamC
          & Hrun & _ & HrpcA & HfA & _ & _ & HrpcC & HfC).
    exists e, st'. split; [exact Hrun|].
    injection HrpcA as <-. injection HrpcC as <-.
    split; [exact HfA|]. split; [exact HfC|].
    pose proof (f_equal (fun r => files (snd r) !! "/s/b.sysinfo") Hrun) as Hb.
    cbn [snd] in Hb. rewrite <- Hb. vm_compute. reflexivity.
  - apply (proj2 (sysinfo_aggregate calmWorld directSession exState) exLines eq_refl).
    intros line Hin.
    repeat (apply elem_of_cons in Hin; destruct Hin as [->|Hin]);
      [exists "a", "1" | exists "b", "2" | exists "c", "3" |
       apply elem_of_nil in Hin; destruct Hin];
      (split; [reflexivity | intros st0; reflexivity]).
Defined.

Lemma startCollection_short_row_witness :
  KubeGetPods__ shortRowWorld (tick exState) (podLabels shortRowWorld)
  = Ok ([["p1"; "a"; "Running"]] ++ ["p2"] :: [["p3"; "b"; "Running"]])
  /\ Forall (fun a => is_Some (a !! 1%nat)) [["p1"; "a"; "Running"]]
  /\ ["p2"] !! 1%nat = None
  /\ exists msg,
       startCollection shortRowWorld exRun exState
       = (Panic msg,
          {| tick := 1; files := files exState;
             trace := [EvLog ("Pods: " +:+ nl);
                       rowLog ["p1"; "a"; "Running"]; rowLog ["p2"]] |}).
Proof.
  assert (Hpre : Forall (fun a => is_Some (a !! 1%nat)) [["p1"; "a"; "Running"]])
    by (repeat constructor; eexists; reflexivity).
  split; [reflexivity|]. split; [exact Hpre|]. split; [reflexivity|].
  exact (startCollection_short_row shortRowWorld exRun exState
           [["p1"; "a"; "Running"]] ["p2"] [["p3"; "b"; "Running"]]
           eq_refl Hpre eq_refl).
Defined.


Lemma endCollection_returns_nil_witness :
  (forall t conn id, is_Some (fst (rpcGetCollectionResults resetWorld t conn id)))
  /\ (forall n st0, n ∈ collectNodes exRunAB ->
        exists conn st1,
          DialMonitor resetWorld (session exRunAB) n st0 = (Ret (Ok conn), st1))
  /\ exists st',
       endCollection resetWorld exRunAB exState = (Ret None, st')
       /\ attemptedNodes (trace st') = attemptedNodes (trace exState) ++ ["a"; "b"].
Proof.
  assert (Hs : forall t conn id,
             is_Some (fst (rpcGetCollectionResults resetWorld t conn id)))
    by (intros t conn id; eexists; reflexivity).
  assert (Hd : forall n st0, n ∈ collectNodes exRunAB ->
             exists conn st1,
               DialMonitor resetWorld (session exRunAB) n st0 = (Ret (Ok conn), st1)).
  { intros n st0 Hn.
    repeat (apply elem_of_cons in Hn; destruct Hn as [->|Hn]);
      [eexists _, _; reflexivity | eexists _, _; reflexivity |
       apply elem_of_nil in Hn; destruct Hn]. }
  split; [exact Hs|]. split; [exact Hd|].
  exact (endCollection_returns_nil resetWorld exRunAB exState Hs Hd).
Defined.
